(** * Navigation and history synchronisation of the survey page (public/script.js)

    A shallow embedding of the client script of the survey web page: the
    script's top-level variables, the parts of the browser it talks to
    (document, session storage, native history, listeners, scheduled
    callbacks) and every function of its navigation core, followed by the
    properties of that core.

    Conventions of the embedding.
    - JavaScript numbers are the integers [Num z] plus [NaN] (which
      [parseInt] produces).  Page indices and scroll offsets are integral
      in every run of the script; the embedding is exact inside the safe
      integer range and says nothing about fractional offsets.
    - Strings are sequences of 8-bit code units.
    - A function of the script is a computation [M A]: it takes the state
      and returns a completion (normal, or a thrown exception) together
      with the state.  A thrown exception keeps the effects made before
      it, as in JavaScript.
    - The variables have the types their JSDoc comments declare.  A run
      that would continue with a value of another type (which only
      [JSON.parse] of a tampered storage can produce) ends in
      [OutsideModel]; no property is claimed for such runs.
    - [getMetadata] (network, two storage keys nobody else reads), the
      chat subsystem and the bodies of deferred callbacks are outside the
      navigation core; scheduling a callback is recorded, running it is
      not embedded. *)

From Stdlib Require Import ZArith String Ascii List Lia.
From Stdlib Require Import DecimalString DecimalFacts DecimalPos DecimalZ.
From stdpp Require Import base gmap strings list.

Set Default Proof Using "Type".
Set Warnings "-register-all".

#[local] Arguments String.append !s1 s2 : simpl nomatch.

(* ===================================================================== *)
(** * JavaScript values used by the script *)
(* ===================================================================== *)

(** ** Numbers *)

Inductive number : Type :=
| Num (z : Z)
| NaN.

#[global] Instance number_eq_dec : EqDecision number.
Proof. solve_decision. Defined.

#[global] Instance number_countable : Countable number.
Proof.
  refine (inj_countable'
            (fun n => match n with Num z => Some z | NaN => None end)
            (fun o => match o with Some z => Num z | None => NaN end) _).
  intros []; reflexivity.
Defined.

(** [a === b] on numbers: [NaN] is equal to nothing. *)
Definition strict_eq (a b : number) : bool :=
  match a, b with
  | Num x, Num y => bool_decide (x = y)
  | _, _ => false
  end.

(** [a < b], [a <= b] and [a >= b]: false as soon as one side is [NaN]. *)
Definition num_lt (a b : number) : bool :=
  match a, b with
  | Num x, Num y => bool_decide (x < y)%Z
  | _, _ => false
  end.

Definition num_le (a b : number) : bool :=
  match a, b with
  | Num x, Num y => bool_decide (x <= y)%Z
  | _, _ => false
  end.

Definition num_ge (a b : number) : bool := num_le b a.

(** [n++] and [n--] as statements. *)
Definition incr (n : number) : number :=
  match n with Num z => Num (z + 1) | NaN => NaN end.

Definition decr (n : number) : number :=
  match n with Num z => Num (z - 1) | NaN => NaN end.

(** ** Characters and decimal numerals *)

Definition dquote : ascii := "034"%char.
Definition backslash : ascii := "092"%char.

Definition is_digit (c : ascii) : bool :=
  (48 <=? N_of_ascii c)%N && (N_of_ascii c <=? 57)%N.

(** Decimal numeral of an integer, as [String(z)] and [JSON.stringify(z)]
    print it. *)
Definition Z_to_string (z : Z) : string :=
  NilZero.string_of_int (Z.to_int z).

(** Value of a run of decimal digits. *)
Definition digits_to_Z (w : string) : Z :=
  match NilEmpty.uint_of_string w with
  | Some d => Z.of_uint d
  | None => 0%Z
  end.

(** Longest prefix of digits, and what follows it. *)
Fixpoint span_digits (s : string) : string * string :=
  match s with
  | String c s' =>
      if is_digit c
      then let '(w, r) := span_digits s' in (String c w, r)
      else (EmptyString, s)
  | EmptyString => (EmptyString, EmptyString)
  end.

(** [String(n)] and the template-literal conversion of a number. *)
Definition number_to_string (n : number) : string :=
  match n with
  | Num z => Z_to_string z
  | NaN => "NaN"
  end.

(** White space skipped by [parseInt] (the code units below 256 of
    StrWhiteSpaceChar). *)
Definition is_str_ws (c : ascii) : bool :=
  match N_of_ascii c with
  | 9%N | 10%N | 11%N | 12%N | 13%N | 32%N | 160%N => true
  | _ => false
  end.

Fixpoint skip_ws (s : string) : string :=
  match s with
  | String c s' => if is_str_ws c then skip_ws s' else s
  | EmptyString => EmptyString
  end.

(** [parseInt(s, 10)]: leading white space, an optional sign, then the
    longest run of digits; [NaN] when that run is empty.  Whatever follows
    the digits is ignored. *)
Definition parseInt (s : string) : number :=
  let s1 := skip_ws s in
  let '(neg, s2) :=
    match s1 with
    | String "-"%char r => (true, r)
    | String "+"%char r => (false, r)
    | _ => (false, s1)
    end in
  let '(w, _) := span_digits s2 in
  match w with
  | EmptyString => NaN
  | _ => Num (if neg : bool then - digits_to_Z w else digits_to_Z w)
  end.

(** A string used as a condition: only the empty string is falsy. *)
Definition truthy (s : string) : bool :=
  match s with EmptyString => false | _ => true end.

(* ===================================================================== *)
(** * JSON *)
(* ===================================================================== *)

(** [JSON.parse] is embedded for the JSON grammar without fractions,
    exponents and escape sequences.  A text that uses one of these is
    reported as [Unsupported] (the embedding does not say what the script
    does with it); [BadSyntax] is returned only for texts on which
    [JSON.parse] throws a SyntaxError. *)

Inductive json : Type :=
| JNull
| JBool (b : bool)
| JNumber (z : Z)
| JString (s : string)
| JArray (l : list json)
| JObject (l : list (string * json)).

Inductive token : Type :=
| TLBracket | TRBracket | TLBrace | TRBrace | TColon | TComma
| TNull | TTrue | TFalse
| TNumber (z : Z)
| TString (s : string).

Inductive lexed : Type :=
| Tokens (ts : list token)
| BadSyntax
| Unsupported.

Definition emit (t : token) (r : lexed) : lexed :=
  match r with
  | Tokens ts => Tokens (t :: ts)
  | BadSyntax => BadSyntax
  | Unsupported => Unsupported
  end.

Definition is_json_ws (c : ascii) : bool :=
  match N_of_ascii c with
  | 9%N | 10%N | 13%N | 32%N => true
  | _ => false
  end.

Definition punct (c : ascii) : option token :=
  match c with
  | "["%char => Some TLBracket
  | "]"%char => Some TRBracket
  | "{"%char => Some TLBrace
  | "}"%char => Some TRBrace
  | ":"%char => Some TColon
  | ","%char => Some TComma
  | _ => None
  end.

(** What may follow a number literal directly: a separator or a closing
    bracket. *)
Definition closer (c : ascii) : option token :=
  match c with
  | "]"%char => Some TRBracket
  | "}"%char => Some TRBrace
  | ","%char => Some TComma
  | _ => None
  end.

(** The token of a finished integer literal; [None] for a lone sign and for
    a leading zero. *)
Definition finish_number (neg : bool) (w : string) : option token :=
  match w with
  | EmptyString => None
  | String "0"%char (String _ _) => None
  | _ => Some (TNumber (if neg then - digits_to_Z w else digits_to_Z w))
  end.

Inductive lex_mode : Type :=
| InGap
| InNumber (neg : bool) (w : string)
| InString (w : string).

Definition snoc (w : string) (c : ascii) : string :=
  String.append w (String c EmptyString).

Fixpoint lex (m : lex_mode) (s : string) {struct s} : lexed :=
  match s with
  | EmptyString =>
      match m with
      | InGap => Tokens []
      | InNumber neg w =>
          match finish_number neg w with
          | Some t => Tokens [t]
          | None => BadSyntax
          end
      | InString _ => BadSyntax
      end
  | String c s' =>
      match m with
      | InGap =>
          if is_json_ws c then lex InGap s'
          else match punct c with
          | Some t => emit t (lex InGap s')
          | None =>
              if is_digit c then lex (InNumber false (String c EmptyString)) s'
              else if Ascii.eqb c "-" then lex (InNumber true EmptyString) s'
              else if Ascii.eqb c dquote then lex (InString EmptyString) s'
              else match s with
              | String "n"%char (String "u"%char (String "l"%char
                  (String "l"%char r))) => emit TNull (lex InGap r)
              | String "t"%char (String "r"%char (String "u"%char
                  (String "e"%char r))) => emit TTrue (lex InGap r)
              | String "f"%char (String "a"%char (String "l"%char
                  (String "s"%char (String "e"%char r)))) =>
                  emit TFalse (lex InGap r)
              | _ => BadSyntax
              end
          end
      | InNumber neg w =>
          if is_digit c then lex (InNumber neg (snoc w c)) s'
          else if Ascii.eqb c "." || Ascii.eqb c "e" || Ascii.eqb c "E"
          then Unsupported
          else match finish_number neg w with
          | None => BadSyntax
          | Some t =>
              if is_json_ws c then emit t (lex InGap s')
              else match closer c with
              | Some t' => emit t (emit t' (lex InGap s'))
              | None => BadSyntax
              end
          end
      | InString w =>
          if Ascii.eqb c dquote then emit (TString w) (lex InGap s')
          else if Ascii.eqb c backslash then Unsupported
          else if (N_of_ascii c <? 32)%N then BadSyntax
          else lex (InString (snoc w c)) s'
      end
  end.

(** The parser is a pushdown automaton over the tokens.  A frame is an
    array or object under construction. *)
Inductive frame : Type :=
| InArray (elems : list json)
| InObject (members : list (string * json)) (key : string).

Inductive pstate : Type :=
| WantValue (stk : list frame)
| WantValueOrClose (elems_stk : list frame)
| WantKeyOrClose (stk : list frame)
| WantKey (members : list (string * json)) (stk : list frame)
| WantColon (members : list (string * json)) (key : string) (stk : list frame)
| Have (v : json) (stk : list frame).

Definition start_value (t : token) (stk : list frame) : option pstate :=
  match t with
  | TNull => Some (Have JNull stk)
  | TTrue => Some (Have (JBool true) stk)
  | TFalse => Some (Have (JBool false) stk)
  | TNumber z => Some (Have (JNumber z) stk)
  | TString s => Some (Have (JString s) stk)
  | TLBracket => Some (WantValueOrClose stk)
  | TLBrace => Some (WantKeyOrClose stk)
  | _ => None
  end.

Definition pstep (p : pstate) (t : token) : option pstate :=
  match p with
  | WantValue stk => start_value t stk
  | WantValueOrClose stk =>
      match t with
      | TRBracket => Some (Have (JArray []) stk)
      | _ => start_value t (InArray [] :: stk)
      end
  | WantKeyOrClose stk =>
      match t with
      | TRBrace => Some (Have (JObject []) stk)
      | TString k => Some (WantColon [] k stk)
      | _ => None
      end
  | WantKey ms stk =>
      match t with
      | TString k => Some (WantColon ms k stk)
      | _ => None
      end
  | WantColon ms k stk =>
      match t with
      | TColon => Some (WantValue (InObject ms k :: stk))
      | _ => None
      end
  | Have v stk =>
      match stk with
      | [] => None
      | InArray es :: stk' =>
          match t with
          | TComma => Some (WantValue (InArray (es ++ [v]) :: stk'))
          | TRBracket => Some (Have (JArray (es ++ [v])) stk')
          | _ => None
          end
      | InObject ms k :: stk' =>
          match t with
          | TComma => Some (WantKey (ms ++ [(k, v)]) stk')
          | TRBrace => Some (Have (JObject (ms ++ [(k, v)])) stk')
          | _ => None
          end
      end
  end.

Fixpoint prun (p : pstate) (ts : list token) : option json :=
  match ts with
  | [] => match p with Have v [] => Some v | _ => None end
  | t :: ts' =>
      match pstep p t with
      | Some p' => prun p' ts'
      | None => None
      end
  end.

Inductive parsed : Type :=
| Parsed (v : json)
| SyntaxErrorAt
| NotEmbedded.

Definition JSON_parse (s : string) : parsed :=
  match lex InGap s with
  | Tokens ts =>
      match prun (WantValue []) ts with
      | Some v => Parsed v
      | None => SyntaxErrorAt
      end
  | BadSyntax => SyntaxErrorAt
  | Unsupported => NotEmbedded
  end.

(* ===================================================================== *)
(** * Data of the script *)
(* ===================================================================== *)

(** The three constants at the top of the script.  The repository ships
    them as [script_config]; the comments next to them ask for the actual
    values of a deployment, so every function takes them as a parameter. *)
Record Config : Type := {
  totalPages : Z;
  chatbotPage : Z;
  textareaReplacement : bool
}.

Definition script_config : Config :=
  {| totalPages := 1; chatbotPage := 1; textareaReplacement := false |}.

(** A state object [{page: n}] of the history. *)
Record HistoryState : Type := { page : number }.

#[global] Instance HistoryState_eq_dec : EqDecision HistoryState.
Proof. solve_decision. Defined.

(** A popstate event; [state] is [None] for an entry without state. *)
Record PopStateEvent : Type := { state : option HistoryState }.

(** ** Serialisation of the two persisted structures *)

Definition json_number (n : number) : string :=
  match n with
  | Num z => Z_to_string z
  | NaN => "null"
  end.

Definition quoted (s : string) : string :=
  String dquote (String.append s (String dquote EmptyString)).

Definition stringify_historyState (e : HistoryState) : string :=
  String "{" (String.append (quoted "page")
    (String ":" (String.append (json_number (page e)) "}"))).

Fixpoint join_comma (l : list string) : string :=
  match l with
  | [] => EmptyString
  | [x] => x
  | x :: l' => String.append x (String "," (join_comma l'))
  end.

(** [JSON.stringify(historyStates)]. *)
Definition stringify_historyStates (l : list HistoryState) : string :=
  String "[" (String.append (join_comma (stringify_historyState <$> l)) "]").

Definition stringify_member (kv : number * Z) : string :=
  String.append (quoted (number_to_string kv.1))
    (String ":" (Z_to_string kv.2)).

(** [JSON.stringify(scrollPositions)].  The object is a finite map from
    page numbers to offsets; its keys are printed in the order in which the
    map enumerates them, to which [JSON.parse] is insensitive. *)
Definition stringify_scrollPositions (m : gmap number Z) : string :=
  String "{" (String.append (join_comma (stringify_member <$> map_to_list m)) "}").

(** Reading a parsed value back at the types the script declares for its
    variables ([Array<{page: number}>] and [Object.<string, number>]). *)
Definition historyState_of_json (v : json) : option HistoryState :=
  match v with
  | JObject [(k, JNumber z)] =>
      if String.eqb k "page" then Some {| page := Num z |} else None
  | _ => None
  end.

Definition historyStates_of_json (v : json) : option (list HistoryState) :=
  match v with
  | JArray l => mapM historyState_of_json l
  | _ => None
  end.

Definition key_to_number (k : string) : option number :=
  if String.eqb k "NaN" then Some NaN
  else match parseInt k with
       | Num z => if String.eqb (Z_to_string z) k then Some (Num z) else None
       | NaN => None
       end.

Definition member_of_json (kv : string * json) : option (number * Z) :=
  match key_to_number kv.1, kv.2 with
  | Some k, JNumber z => Some (k, z)
  | _, _ => None
  end.

(** A repeated key keeps its last value, as in [JSON.parse]. *)
Definition scrollPositions_of_json (v : json) : option (gmap number Z) :=
  match v with
  | JObject ms =>
      match mapM member_of_json ms with
      | Some l => Some (list_to_map (reverse l))
      | None => None
      end
  | _ => None
  end.

(* ===================================================================== *)
(** * The browser as the script sees it *)
(* ===================================================================== *)

(** ** Document *)

(** The script finds elements by id and by class and only changes class
    lists, so an element is an id with a class list and the document is the
    list of its elements in document order, plus the class list of the
    body.  An element reference is a position in that list. *)
Record Element : Type := { el_id : string; classList : list string }.

Record Document : Type := {
  body_classList : list string;
  doc_elements : list Element
}.

Definition classList_add (c : string) (l : list string) : list string :=
  if bool_decide (c ∈ l) then l else l ++ [c].

Definition classList_remove (c : string) (l : list string) : list string :=
  filter (λ x, x ≠ c) l.

Definition has_class (c : string) (e : Element) : bool :=
  bool_decide (c ∈ classList e).

Definition with_classList (f : list string → list string) (e : Element)
  : Element :=
  {| el_id := el_id e; classList := f (classList e) |}.

Definition update_element (f : list string → list string) (i : nat)
    (d : Document) : Document :=
  {| body_classList := body_classList d;
     doc_elements := alter (with_classList f) i (doc_elements d) |}.

Definition update_body (f : list string → list string) (d : Document)
  : Document :=
  {| body_classList := f (body_classList d);
     doc_elements := doc_elements d |}.

Definition ids (d : Document) : list string := el_id <$> doc_elements d.

(** [document.getElementById(id)]: the first element with that id. *)
Definition getElementById (d : Document) (id : string) : option nat :=
  fst <$> list_find (λ x, x = id) (ids d).

Definition has_class_at (c : string) (d : Document) (i : nat) : bool :=
  match doc_elements d !! i with
  | Some e => has_class c e
  | None => false
  end.

(** [document.querySelectorAll('.c')] and
    [document.getElementsByClassName('c')], in document order. *)
Definition elementsByClassName (d : Document) (c : string) : list nat :=
  filter (λ i, has_class_at c d i = true) (seq 0 (length (doc_elements d))).

(** [pages.forEach(page => page.classList.remove('active'))] over the
    element references [ps]. *)
Definition hide_all (ps : list nat) (d : Document) : Document :=
  foldl (λ d i, update_element (classList_remove "active") i d) d ps.

(** The pages on display: the [.page] elements that carry [active]. *)
Definition displayedPages (d : Document) : list nat :=
  filter (λ i, has_class_at "page" d i && has_class_at "active" d i = true)
         (seq 0 (length (doc_elements d))).

(** [`page${n}`]. *)
Definition pageId (n : number) : string :=
  String.append "page" (number_to_string n).

(** ** Native history *)

(** The session history of the tab around its current entry: the entries
    behind it (nearest first), the entry itself and the entries ahead of it
    (nearest first); each entry carries its state object or [None].
    [history.back()] only queues a traversal: [pendingBack] counts the
    traversals the script has asked for and the browser has not yet
    performed. *)
Record NativeHistory : Type := {
  hist_back : list (option HistoryState);
  hist_current : option HistoryState;
  hist_forward : list (option HistoryState);
  pendingBack : nat
}.

Definition replaceState (o : HistoryState) (h : NativeHistory)
  : NativeHistory :=
  {| hist_back := hist_back h; hist_current := Some o;
     hist_forward := hist_forward h; pendingBack := pendingBack h |}.

Definition pushState (o : HistoryState) (h : NativeHistory) : NativeHistory :=
  {| hist_back := hist_current h :: hist_back h; hist_current := Some o;
     hist_forward := []; pendingBack := pendingBack h |}.

Definition history_back (h : NativeHistory) : NativeHistory :=
  {| hist_back := hist_back h; hist_current := hist_current h;
     hist_forward := hist_forward h; pendingBack := S (pendingBack h) |}.

(** All entries of the stack, oldest first. *)
Definition history_entries (h : NativeHistory) : list (option HistoryState) :=
  reverse (hist_back h) ++ hist_current h :: hist_forward h.

(** ** Scheduled callbacks *)

(** The callback [showPage] hands to [requestAnimationFrame] (it closes
    over the page element) and the one [applyChatbotViewState] hands to
    [setTimeout]. *)
Inductive FrameCallback : Type :=
| RestoreScroll (pageElement : option nat).

Inductive TimeoutCallback : Type :=
| LockChatbotView.

(** ** Window *)

Record Window : Type := {
  document : Document;
  sessionStorage : gmap string string;
  history : NativeHistory;
  scrollY : Z;
  popstateListener : bool;
  beforeunloadListeners : nat;
  frameRequests : list (nat * FrameCallback);
  nextHandle : nat;
  timeouts : list (Z * TimeoutCallback);
  dispatchedEvents : list string
}.

(* ===================================================================== *)
(** * State of a run *)
(* ===================================================================== *)

(** The top-level variables of the script and the window.  [pages] and
    [consentCheckbox] are [None] while they hold [undefined];
    [consentCheckbox] stands for an input element by the value of its
    [checked] property.  [scrollPos] is the variable [showPage] assigns
    without declaring it. *)
Record State : Type := {
  pages : option (list nat);
  consentCheckbox : option bool;
  currentPage : number;
  historyStates : list HistoryState;
  scrollPositions : gmap number Z;
  scrollFrame1Id : option nat;
  scrollFrame2Id : option nat;
  bypassPopState : bool;
  dialogueFinished : bool;
  scrollPos : option Z;
  window : Window
}.

(** ** Updating one variable *)

Definition set_pages (v : option (list nat)) (st : State) : State :=
  let '(Build_State _ c p h s f1 f2 b d sp w) := st in
  Build_State v c p h s f1 f2 b d sp w.

Definition set_consentCheckbox (v : option bool) (st : State) : State :=
  let '(Build_State ps _ p h s f1 f2 b d sp w) := st in
  Build_State ps v p h s f1 f2 b d sp w.

Definition set_currentPage (v : number) (st : State) : State :=
  let '(Build_State ps c _ h s f1 f2 b d sp w) := st in
  Build_State ps c v h s f1 f2 b d sp w.

Definition set_historyStates (v : list HistoryState) (st : State) : State :=
  let '(Build_State ps c p _ s f1 f2 b d sp w) := st in
  Build_State ps c p v s f1 f2 b d sp w.

Definition set_scrollPositions (v : gmap number Z) (st : State) : State :=
  let '(Build_State ps c p h _ f1 f2 b d sp w) := st in
  Build_State ps c p h v f1 f2 b d sp w.

Definition set_scrollFrame1Id (v : option nat) (st : State) : State :=
  let '(Build_State ps c p h s _ f2 b d sp w) := st in
  Build_State ps c p h s v f2 b d sp w.

Definition set_scrollFrame2Id (v : option nat) (st : State) : State :=
  let '(Build_State ps c p h s f1 _ b d sp w) := st in
  Build_State ps c p h s f1 v b d sp w.

Definition set_bypassPopState (v : bool) (st : State) : State :=
  let '(Build_State ps c p h s f1 f2 _ d sp w) := st in
  Build_State ps c p h s f1 f2 v d sp w.

Definition set_dialogueFinished (v : bool) (st : State) : State :=
  let '(Build_State ps c p h s f1 f2 b _ sp w) := st in
  Build_State ps c p h s f1 f2 b v sp w.

Definition set_scrollPos (v : option Z) (st : State) : State :=
  let '(Build_State ps c p h s f1 f2 b d _ w) := st in
  Build_State ps c p h s f1 f2 b d v w.

Definition on_window (f : Window → Window) (st : State) : State :=
  let '(Build_State ps c p h s f1 f2 b d sp w) := st in
  Build_State ps c p h s f1 f2 b d sp (f w).

Definition on_document (f : Document → Document) (w : Window) : Window :=
  let '(Build_Window d ss h y pl bl fr nh ts ev) := w in
  Build_Window (f d) ss h y pl bl fr nh ts ev.

Definition on_sessionStorage (f : gmap string string → gmap string string)
    (w : Window) : Window :=
  let '(Build_Window d ss h y pl bl fr nh ts ev) := w in
  Build_Window d (f ss) h y pl bl fr nh ts ev.

Definition on_history (f : NativeHistory → NativeHistory) (w : Window)
  : Window :=
  let '(Build_Window d ss h y pl bl fr nh ts ev) := w in
  Build_Window d ss (f h) y pl bl fr nh ts ev.

Definition set_scrollY (v : Z) (w : Window) : Window :=
  let '(Build_Window d ss h _ pl bl fr nh ts ev) := w in
  Build_Window d ss h v pl bl fr nh ts ev.

Definition set_popstateListener (v : bool) (w : Window) : Window :=
  let '(Build_Window d ss h y _ bl fr nh ts ev) := w in
  Build_Window d ss h y v bl fr nh ts ev.

Definition add_beforeunloadListener (w : Window) : Window :=
  let '(Build_Window d ss h y pl bl fr nh ts ev) := w in
  Build_Window d ss h y pl (S bl) fr nh ts ev.

(** [requestAnimationFrame(cb)]: queue the callback under a fresh handle. *)
Definition request_frame (cb : FrameCallback) (w : Window) : Window :=
  let '(Build_Window d ss h y pl bl fr nh ts ev) := w in
  Build_Window d ss h y pl bl (fr ++ [(nh, cb)]) (S nh) ts ev.

(** [cancelAnimationFrame(id)]. *)
Definition cancel_frame (id : nat) (w : Window) : Window :=
  let '(Build_Window d ss h y pl bl fr nh ts ev) := w in
  Build_Window d ss h y pl bl (filter (λ r, r.1 ≠ id) fr) nh ts ev.

(** [setTimeout(cb, ms)]. *)
Definition set_timeout (cb : TimeoutCallback) (ms : Z) (w : Window) : Window :=
  let '(Build_Window d ss h y pl bl fr nh ts ev) := w in
  Build_Window d ss h y pl bl fr nh (ts ++ [(ms, cb)]) ev.

(** [document.dispatchEvent(new Event(name))]: the listeners belong to the
    chat subsystem; the dispatch is recorded. *)
Definition dispatch_event (name : string) (w : Window) : Window :=
  let '(Build_Window d ss h y pl bl fr nh ts ev) := w in
  Build_Window d ss h y pl bl fr nh ts (ev ++ [name]).

(* ===================================================================== *)
(** * Computations *)
(* ===================================================================== *)

Inductive exn : Type := TypeError | SyntaxError.

(** How a call ends.  [OutsideModel] marks a run that continues in
    JavaScript with a value the typed state cannot hold (a persisted text
    that is valid JSON of another shape, or uses a part of JSON that
    [JSON_parse] does not embed); nothing is claimed about such runs. *)
Inductive completion (A : Type) : Type :=
| Normal (a : A)
| Throw (e : exn)
| OutsideModel.

Arguments Normal {A} a.
Arguments Throw {A} e.
Arguments OutsideModel {A}.

Definition M (A : Type) : Type := State → completion A * State.

Definition ret {A} (a : A) : M A := λ st, (Normal a, st).

Definition bind {A B} (m : M A) (k : A → M B) : M B := λ st,
  match m st with
  | (Normal a, st') => k a st'
  | (Throw e, st') => (Throw e, st')
  | (OutsideModel, st') => (OutsideModel, st')
  end.

Definition throw {A} (e : exn) : M A := λ st, (Throw e, st).
Definition outside {A} : M A := λ st, (OutsideModel, st).
Definition gets {A} (f : State → A) : M A := λ st, (Normal (f st), st).
Definition modify (f : State → State) : M unit := λ st, (Normal tt, f st).

Declare Scope js_scope.
Delimit Scope js_scope with js.

Notation "'let*' x := m 'in' k" := (bind m (fun x => k))
  (at level 10, x name, m at level 100, k at level 200) : js_scope.
Notation "m ;; k" := (bind m (fun _ => k))
  (at level 100, k at level 200, right associativity) : js_scope.

Local Open Scope js_scope.

(** [when b m] is [if (b) { m }]. *)
Definition when (b : bool) (m : M unit) : M unit := if b then m else ret tt.

(** ** Calls into the browser *)

Definition getItem (k : string) : M (option string) :=
  gets (λ st, sessionStorage (window st) !! k).

Definition setItem (k v : string) : M unit :=
  modify (on_window (on_sessionStorage (insert k v))).

Definition lookupElement (id : string) : M (option nat) :=
  gets (λ st, getElementById (document (window st)) id).

(** [ref.classList.add(c)] and [ref.classList.remove(c)]: reading
    [classList] of [null] or [undefined] is a TypeError. *)
Definition classList_do (f : list string → list string) (ref : option nat)
  : M unit :=
  match ref with
  | Some i => modify (on_window (on_document (update_element f i)))
  | None => throw TypeError
  end.

Definition body_classList_do (f : list string → list string) : M unit :=
  modify (on_window (on_document (update_body f))).

(* ===================================================================== *)
(** * The script *)
(* ===================================================================== *)

(** ** Top level: the initial values of the variables *)

(** Lines 40-55: the script is evaluated in the window [w].  (Line 65
    registers [initializePage] for DOMContentLoaded; the browser calls it
    next.) *)
Definition loadScript (w : Window) : State :=
  {| pages := None;
     consentCheckbox := None;
     currentPage := Num 1;
     historyStates := [];
     scrollPositions := ∅;
     scrollFrame1Id := None;
     scrollFrame2Id := None;
     bypassPopState := false;
     dialogueFinished :=
       bool_decide (sessionStorage w !! "dialogueFinished" = Some "true");
     scrollPos := None;
     window := w |}.

(** ** Initialization of page elements and event listeners *)

(** Lines 100-103.  [pages] is the only variable it assigns. *)
Definition referenceElements : M unit :=
  modify (λ st,
    set_pages (Some (elementsByClassName (document (window st)) "page")) st).

(** ** State management *)

(** Lines 319-322. *)
Definition saveNavigationState : M unit :=
  let* cur := gets currentPage in
  setItem "currentPage" (number_to_string cur);;
  let* hs := gets historyStates in
  setItem "historyStates" (stringify_historyStates hs).

(** Lines 335-341.  The guard reads [currentPage], not [pageNumber]. *)
Definition saveScrollPositions (cfg : Config) (pageNumber : number) : M unit :=
  let* scrollY := gets (λ st, scrollY (window st)) in
  let* cur := gets currentPage in
  when (negb (strict_eq cur (Num (chatbotPage cfg))))
    (modify (λ st,
       set_scrollPositions (<[pageNumber := scrollY]> (scrollPositions st)) st);;
     let* sp := gets scrollPositions in
     setItem "scrollPositions" (stringify_scrollPositions sp)).

(** Lines 356-372. *)
Definition setFinishedDialogueState (cfg : Config) : M unit :=
  let* inputContainer := lookupElement "input-container" in
  let* finishedDialogueButton := lookupElement "finished-dialogue-container" in
  if negb (textareaReplacement cfg) then
    classList_do (classList_add "hidden") finishedDialogueButton;;
    classList_do (classList_remove "hidden") inputContainer
  else
    let* finished := gets dialogueFinished in
    if negb finished then
      classList_do (classList_add "hidden") finishedDialogueButton;;
      classList_do (classList_remove "hidden") inputContainer
    else
      classList_do (classList_add "hidden") inputContainer;;
      classList_do (classList_remove "hidden") finishedDialogueButton.

(** [JSON.parse(s)] read at the declared type of the variable it is
    assigned to. *)
Definition parse_as {A} (decode : json → option A) (s : string) : M A :=
  match JSON_parse s with
  | SyntaxErrorAt => throw SyntaxError
  | NotEmbedded => outside
  | Parsed v =>
      match decode v with
      | Some a => ret a
      | None => outside
      end
  end.

(** [if (saved) { ... }] for a value read from the storage: [null] and the
    empty string are falsy. *)
Definition if_saved (saved : option string) (k : string → M unit) : M unit :=
  match saved with
  | Some s => if truthy s then k s else ret tt
  | None => ret tt
  end.

(** Lines 387-404. *)
Definition restoreState (cfg : Config) : M unit :=
  let* savedPage := getItem "currentPage" in
  if_saved savedPage (λ s, modify (set_currentPage (parseInt s)));;
  let* savedHistoryStates := getItem "historyStates" in
  if_saved savedHistoryStates (λ s,
    let* v := parse_as historyStates_of_json s in
    modify (set_historyStates v));;
  let* savedScrollPositions := getItem "scrollPositions" in
  if_saved savedScrollPositions (λ s,
    let* v := parse_as scrollPositions_of_json s in
    modify (set_scrollPositions v));;
  setFinishedDialogueState cfg.

(** ** Chatbot page *)

(** [pageContainers[chatbotPage - 1]] in the live collection of the
    [.page] elements; [undefined] outside it. *)
Definition pageContainer (cfg : Config) : M (option nat) :=
  gets (λ st,
    let i := (chatbotPage cfg - 1)%Z in
    if bool_decide (0 ≤ i)%Z
    then elementsByClassName (document (window st)) "page" !! Z.to_nat i
    else None).

(** Lines 204-238.  The deferred part of branch (b) (mobile activation
    and the locked classes) is recorded as a timeout. *)
Definition applyChatbotViewState (cfg : Config) : M unit :=
  let* chatbotInterface := lookupElement "chatbot-interface" in
  let* surveyContainer := lookupElement "survey-container" in
  match chatbotInterface, surveyContainer with
  | Some _, Some _ =>
      let* cur := gets currentPage in
      if strict_eq cur (Num (chatbotPage cfg)) then
        classList_do (classList_remove "chatbot-hidden") chatbotInterface;;
        classList_do (classList_add "chatbot-visible") chatbotInterface;;
        classList_do (classList_add "chatbot-visible") surveyContainer;;
        (let* pc := pageContainer cfg in
         classList_do (classList_add "chatbot-visible") pc);;
        modify (on_window (set_timeout LockChatbotView 100));;
        modify (on_window (dispatch_event "chatbotInterfaceOpened"))
      else
        body_classList_do (classList_remove "chatbot-visible");;
        classList_do (classList_remove "chatbot-visible") chatbotInterface;;
        classList_do (classList_add "chatbot-hidden") chatbotInterface;;
        classList_do (classList_remove "chatbot-visible") surveyContainer;;
        classList_do (classList_remove "chatbot-visible-locked") surveyContainer;;
        (let* pc := pageContainer cfg in
         classList_do (classList_remove "chatbot-visible") pc);;
        (let* pc := pageContainer cfg in
         classList_do (classList_remove "chatbot-visible-locked") pc)
  | _, _ => ret tt
  end.

(** Lines 252-256. *)
Definition handleFinishedDialogue (cfg : Config) : M unit :=
  modify (set_dialogueFinished true);;
  setItem "dialogueFinished" "true";;
  setFinishedDialogueState cfg.

(** ** Page display *)

(** Lines 177-186. *)
Definition cancelScrollDelays : M unit :=
  let* f1 := gets scrollFrame1Id in
  match f1 with
  | Some id =>
      modify (on_window (cancel_frame id));;
      modify (set_scrollFrame1Id None)
  | None => ret tt
  end;;
  let* f2 := gets scrollFrame2Id in
  match f2 with
  | Some id =>
      modify (on_window (cancel_frame id));;
      modify (set_scrollFrame2Id None)
  | None => ret tt
  end.

(** Lines 140-167.  The frame callback is queued, not run; the
    [console.log] of line 153 has no effect on the state. *)
Definition showPage (cfg : Config) (pageNumber : number) : M unit :=
  cancelScrollDelays;;
  let* ps := gets pages in
  match ps with
  | None => throw TypeError
  | Some ps =>
      modify (on_window (on_document (hide_all ps)))
  end;;
  (let* target := lookupElement (pageId pageNumber) in
   classList_do (classList_add "active") target);;
  when (num_ge pageNumber (Num (chatbotPage cfg - 1))
        && num_le pageNumber (Num (chatbotPage cfg + 1)))
    (applyChatbotViewState cfg);;
  when (negb (strict_eq pageNumber (Num (chatbotPage cfg))))
    (let* pageElement := lookupElement (pageId pageNumber) in
     let* sp := gets (λ st, scrollPositions st !! pageNumber) in
     modify (set_scrollPos sp);;
     match sp with
     | Some _ =>
         let* id := gets (λ st, nextHandle (window st)) in
         modify (on_window (request_frame (RestoreScroll pageElement)));;
         modify (set_scrollFrame1Id (Some id))
     | None => modify (on_window (set_scrollY 0))
     end).

(** ** Navigation and history management *)

(** Lines 425-430.  The test of line 427 is on [currentPage]. *)
Definition initializeHistory (pg : number) : M unit :=
  let stateObj := {| page := pg |} in
  let* cur := gets currentPage in
  let* hs := gets historyStates in
  when (negb (existsb (λ obj, strict_eq (page obj) cur) hs))
    (modify (set_historyStates (hs ++ [stateObj])));;
  modify (on_window (on_history (replaceState stateObj)));;
  saveNavigationState.

(** Lines 443-448. *)
Definition pushPageToHistory (pg : number) : M unit :=
  let stateObj := {| page := pg |} in
  modify (λ st, set_historyStates (historyStates st ++ [stateObj]) st);;
  modify (on_window (on_history (pushState stateObj)));;
  saveNavigationState.

(** [event.state.page]. *)
Definition eventPage (ev : PopStateEvent) : M number :=
  match state ev with
  | Some o => ret (page o)
  | None => throw TypeError
  end.

(** Lines 481-482: read [consentCheckbox.checked], then evaluate
    [currentPage === 1 && event.state.page === 2 && !consentIsChecked]
    from left to right. *)
Definition consentGate (ev : PopStateEvent) : M bool :=
  let* cb := gets consentCheckbox in
  match cb with
  | None => throw TypeError
  | Some consentIsChecked =>
      let* cur := gets currentPage in
      if strict_eq cur (Num 1) then
        let* p := eventPage ev in
        ret (strict_eq p (Num 2) && negb consentIsChecked)
      else ret false
  end.

(** The handler after its pre-check (lines 480-505). *)
Definition reconcile (cfg : Config) (ev : PopStateEvent) : M unit :=
  let* gate := consentGate ev in
  if gate then
    modify (set_bypassPopState true);;
    modify (on_window (on_history history_back))
  else
    let* cur := gets currentPage in
    if strict_eq cur (Num (totalPages cfg)) then
      modify (on_window (set_popstateListener false));;
      modify (on_window (on_history history_back))
    else
      (let* p := eventPage ev in
       let* cur := gets currentPage in
       if num_lt p cur then
         saveScrollPositions cfg cur;;
         modify (λ st, set_currentPage (decr (currentPage st)) st)
       else
         saveScrollPositions cfg cur;;
         modify (λ st, set_currentPage (incr (currentPage st)) st));;
      (let* cur := gets currentPage in showPage cfg cur);;
      saveNavigationState.

(** Lines 472-506. *)
Definition handlePopState (cfg : Config) (ev : PopStateEvent) : M unit :=
  let* bypass := gets bypassPopState in
  if bypass then modify (set_bypassPopState false)
  else reconcile cfg ev.

(** Lines 114-121. *)
Definition attachEventListeners : M unit :=
  modify (on_window add_beforeunloadListener);;
  modify (on_window (set_popstateListener true)).


(** Lines 82-93, without the awaited [getMetadata()]. *)
Definition initializePage (cfg : Config) : M unit :=
  referenceElements;;
  restoreState cfg;;
  (let* cur := gets currentPage in initializeHistory cur);;
  (let* cur := gets currentPage in showPage cfg cur);;
  attachEventListeners;;
  modify (on_window (dispatch_event "surveyDataInitialized")).

(** Modelled from the spec: [goToPage], the entry point of forward and
    explicit navigation, is not part of script.js.  Section 4.5: it
    "determines whether target has been visited before by checking
    historyStates; if yes, performs the same transition as reconciliation
    without a native push (pure display switch); if no, calls
    pushNewPage(target) then displays it"; section 3: scroll positions are
    "updated on page-leave (explicit navigation or unload)".  The gating
    rules it applies first are not specified further and are left out. *)
Definition goToPage (cfg : Config) (target : number) : M unit :=
  (let* cur := gets currentPage in saveScrollPositions cfg cur);;
  let* hs := gets historyStates in
  when (negb (existsb (λ obj, strict_eq (page obj) target) hs))
    (pushPageToHistory target);;
  modify (set_currentPage target);;
  showPage cfg target;;
  saveNavigationState.

(* ===================================================================== *)
(** * The browser delivering navigation events *)
(* ===================================================================== *)

(** A popstate event reaches [handlePopState] while it is registered.  An
    exception that escapes a listener is reported and dropped; the effects
    made before it stay. *)
Definition dispatchPopState (cfg : Config) (ev : PopStateEvent) (st : State)
  : State :=
  if popstateListener (window st) then (handlePopState cfg ev st).2 else st.

Definition step_back (h : NativeHistory) : NativeHistory :=
  match hist_back h with
  | [] => h
  | e :: b =>
      {| hist_back := b; hist_current := e;
         hist_forward := hist_current h :: hist_forward h;
         pendingBack := pendingBack h |}
  end.

Definition step_forward (h : NativeHistory) : NativeHistory :=
  match hist_forward h with
  | [] => h
  | e :: f =>
      {| hist_back := hist_current h :: hist_back h; hist_current := e;
         hist_forward := f; pendingBack := pendingBack h |}
  end.

(** One traversal to the previous entry: the entry becomes current and a
    popstate event carrying its state is fired.  Nothing happens at the
    first entry. *)
Definition traverseBack (cfg : Config) (st : State) : State :=
  match hist_back (history (window st)) with
  | [] => st
  | e :: _ =>
      dispatchPopState cfg {| state := e |}
        (on_window (on_history step_back) st)
  end.

Definition traverseForward (cfg : Config) (st : State) : State :=
  match hist_forward (history (window st)) with
  | [] => st
  | e :: _ =>
      dispatchPopState cfg {| state := e |}
        (on_window (on_history step_forward) st)
  end.

Definition take_pending (h : NativeHistory) : NativeHistory :=
  {| hist_back := hist_back h; hist_current := hist_current h;
     hist_forward := hist_forward h; pendingBack := pred (pendingBack h) |}.

(** The browser performs the traversals queued by [history.back()]. *)
Fixpoint settle (cfg : Config) (fuel : nat) (st : State) : State :=
  match fuel with
  | O => st
  | S fuel' =>
      match pendingBack (history (window st)) with
      | O => st
      | S _ =>
          settle cfg fuel'
            (traverseBack cfg (on_window (on_history take_pending) st))
      end
  end.

(** Enough fuel for [settle] (lemma [settle_settles]): every traversal
    either shortens the entries behind the current one or only consumes a
    request, and the handler queues at most one request per event. *)
Definition settle_fuel (st : State) : nat :=
  let h := history (window st) in
  S (2 * length (hist_back h) + pendingBack h).

(** The user presses the back (forward) button; the browser then performs
    what the script queued. *)
Definition userBack (cfg : Config) (st : State) : State :=
  let st1 := traverseBack cfg st in settle cfg (settle_fuel st1) st1.

Definition userForward (cfg : Config) (st : State) : State :=
  let st1 := traverseForward cfg st in settle cfg (settle_fuel st1) st1.

(** The tab is reloaded: the document is parsed again from [html], the
    listeners and the scheduled callbacks are gone; the session storage
    and the native history stay.  The script then starts over with
    [loadScript] and [initializePage]. *)
Definition reload (html : Document) (w : Window) : Window :=
  {| document := html;
     sessionStorage := sessionStorage w;
     history := history w;
     scrollY := scrollY w;
     popstateListener := false;
     beforeunloadListeners := 0;
     frameRequests := [];
     nextHandle := nextHandle w;
     timeouts := [];
     dispatchedEvents := [] |}.


(* ===================================================================== *)
(** * Vocabulary of the properties *)
(* ===================================================================== *)

(** ** Texts *)




(** The state object of page [z], its JSON value and its tokens. *)
Definition numbered (z : Z) : HistoryState := {| page := Num z |}.






(** ** Runs *)

(** [m] returns normally from [st] into a state that satisfies [Q]. *)
Definition returns {A} (m : M A) (st : State) (Q : A → State → Prop) : Prop :=
  ∃ a st', m st = (Normal a, st') ∧ Q a st'.

(** [m] leaves the observation [f] of the state alone, however it ends. *)
Definition preserves {A B} (f : State → B) (m : M A) : Prop :=
  ∀ st, f (m st).2 = f st.

(** A sequence of [pushPageToHistory] calls. *)
Fixpoint pushAll (ps : list number) : M unit :=
  match ps with
  | [] => ret tt
  | p :: ps' => pushPageToHistory p;; pushAll ps'
  end.

(** Each page of [ps] is absent from the history at the time of its
    call. *)
Fixpoint fresh_calls (visited : list number) (ps : list number) : Prop :=
  match ps with
  | [] => True
  | p :: ps' => (p ∉ visited) ∧ fresh_calls (visited ++ [p]) ps'
  end.

(** The entries of the native history up to the current one, oldest
    first. *)
Definition history_upto (h : NativeHistory) : list (option HistoryState) :=
  reverse (hist_back h) ++ [hist_current h].

(** The browser delivers the events [evs] one after the other. *)
Definition deliver (cfg : Config) (evs : list PopStateEvent) (st : State)
  : State :=
  foldl (λ s ev, dispatchPopState cfg ev s) st evs.

(** ** Documents *)

(** What the script needs to find in the document (the HTML file is not
    part of the script): the two containers [setFinishedDialogueState]
    toggles, and, where the chatbot markup is present, the page container
    of the chatbot page. *)
Definition dialogue_containers (d : Document) : Prop :=
  is_Some (getElementById d "input-container") ∧
  is_Some (getElementById d "finished-dialogue-container").

Definition chatbot_markup (cfg : Config) (d : Document) : Prop :=
  getElementById d "chatbot-interface" = None ∨
  getElementById d "survey-container" = None ∨
  ((0 ≤ chatbotPage cfg - 1)%Z ∧
   is_Some (elementsByClassName d "page" !! Z.to_nat (chatbotPage cfg - 1))).

(** Element [i] is the [.page] element of page [n]. *)
Definition page_element (d : Document) (n : number) (i : nat) : Prop :=
  getElementById d (pageId n) = Some i ∧ has_class_at "page" d i = true.

(** Two documents with the same elements and the same [.page] elements. *)
Definition same_markup (d d' : Document) : Prop :=
  ids d' = ids d ∧ ∀ i, has_class_at "page" d' i = has_class_at "page" d i.

(** ... that also show the same pages. *)
Definition same_display (d d' : Document) : Prop :=
  same_markup d d' ∧
  ∀ i, has_class_at "active" d' i = has_class_at "active" d i.

(** What displaying a page leaves alone: the navigation variables, the
    storage, the native history and the listeners. *)
Definition display_frame (st st' : State) : Prop :=
  pages st' = pages st ∧
  consentCheckbox st' = consentCheckbox st ∧
  currentPage st' = currentPage st ∧
  historyStates st' = historyStates st ∧
  scrollPositions st' = scrollPositions st ∧
  bypassPopState st' = bypassPopState st ∧
  dialogueFinished st' = dialogueFinished st ∧
  sessionStorage (window st') = sessionStorage (window st) ∧
  history (window st') = history (window st) ∧
  popstateListener (window st') = popstateListener (window st) ∧
  beforeunloadListeners (window st') = beforeunloadListeners (window st).

(** A change of the view that keeps the pages on display. *)
Definition view_step (st st' : State) : Prop :=
  display_frame st st' ∧
  same_display (document (window st)) (document (window st')).

(** What [showPage] establishes: the navigation state is as before, the
    markup is the same and exactly element [i] is on display. *)
Definition shows (i : nat) (st st' : State) : Prop :=
  display_frame st st' ∧
  same_markup (document (window st)) (document (window st')) ∧
  displayedPages (document (window st')) = [i].

(** [f] neither adds nor removes the class [c]. *)
Definition keeps_class (c : string) (f : list string → list string) : Prop :=
  ∀ l, c ∈ f l ↔ c ∈ l.

(** ** Navigation *)

(** The two variables [handlePopState] reads before anything else. *)
Definition guards (st : State) : option bool * bool :=
  (consentCheckbox st, bypassPopState st).

(** The native history of a state. *)
Definition native (st : State) : NativeHistory := history (window st).

(** The entries are the same and at most one more back navigation is
    queued. *)
Definition at_most_one_back (h h' : NativeHistory) : Prop :=
  hist_back h' = hist_back h ∧ hist_current h' = hist_current h ∧
  hist_forward h' = hist_forward h ∧ pendingBack h' ≤ S (pendingBack h).


(** The history list [initializeHistory] leaves behind. *)
Definition initialized_history (pg : number) (st : State) : list HistoryState :=
  if existsb (λ obj, strict_eq (page obj) (currentPage st)) (historyStates st)
  then historyStates st
  else historyStates st ++ [{| page := pg |}].



(** ** Sample inputs *)

Definition element (id : string) (classes : list string) : Element :=
  {| el_id := id; classList := classes |}.

(** A survey document with four pages and the chatbot markup. *)
Definition sample_document : Document :=
  {| body_classList := [];
     doc_elements :=
       [ element "survey-container" [];
         element "page1" ["page"]; element "page2" ["page"];
         element "page3" ["page"]; element "page4" ["page"];
         element "chatbot-interface" ["chatbot-hidden"];
         element "input-container" [];
         element "finished-dialogue-container" ["hidden"] ] |}.

(** A freshly opened tab on that document: empty storage, one history
    entry without state. *)
Definition sample_window : Window :=
  {| document := sample_document;
     sessionStorage := ∅;
     history := {| hist_back := []; hist_current := None;
                   hist_forward := []; pendingBack := 0 |};
     scrollY := 0;
     popstateListener := false;
     beforeunloadListeners := 0;
     frameRequests := [];
     nextHandle := 1;
     timeouts := [];
     dispatchedEvents := [] |}.

Definition with_storage (k v : string) (w : Window) : Window :=
  on_sessionStorage (insert k v) w.

Definition after (m : M unit) (st : State) : State := (m st).2.

(** The state after the page has loaded in the sample window. *)
Definition loaded (cfg : Config) : State :=
  after (initializePage cfg) (loadScript sample_window).

(** The same with the consent checkbox referenced, holding [checked]. *)
Definition loaded_with_consent (cfg : Config) (checked : bool) : State :=
  set_consentCheckbox (Some checked) (loaded cfg).

(** Section 8 of the specification: the chatbot on page 2, consent given
    on page 1, then forward to page 2 and to page 3. *)
Definition scenario_config (total : Z) : Config :=
  {| totalPages := total; chatbotPage := 2; textareaReplacement := false |}.

Definition scenario (total : Z) : State :=
  let cfg := scenario_config total in
  after (goToPage cfg (Num 3))
    (after (goToPage cfg (Num 2)) (loaded_with_consent cfg true)).

(** The window of a tab that is reloaded on page 2 after pages 1 and 2
    were visited. *)
Definition reloaded_window : Window :=
  with_storage "currentPage" (number_to_string (Num 2))
    (with_storage "historyStates"
       (stringify_historyStates (numbered <$> [1; 2]%Z))
       (with_storage "scrollPositions"
          (stringify_scrollPositions {[ Num 1 := 120%Z ]})
          sample_window)).

(** ** Further vocabulary *)

(** [m] throws [e] from [st], leaving a state that satisfies [Q]. *)
Definition fails {A} (m : M A) (st : State) (e : exn) (Q : State → Prop)
  : Prop :=
  ∃ st', m st = (Throw e, st') ∧ Q st'.

(** [b] is [a], or one step below or above it. *)
Definition one_step (a b : number) : Prop := b = a ∨ b = decr a ∨ b = incr a.

(** The step of the default branch (lines 496-502): capture, then move. *)
Definition moveOneStep (cfg : Config) (ev : PopStateEvent) : M unit :=
  let* p := eventPage ev in
  let* cur := gets currentPage in
  if num_lt p cur then
    saveScrollPositions cfg cur;;
    modify (λ st, set_currentPage (decr (currentPage st)) st)
  else
    saveScrollPositions cfg cur;;
    modify (λ st, set_currentPage (incr (currentPage st)) st).

(** The frame requests of the window and the handle the script holds. *)
Definition frames (st : State) : list (nat * FrameCallback) * option nat :=
  (frameRequests (window st), scrollFrame1Id st).

(** Every queued frame request is the one [scrollFrame1Id] refers to. *)
Definition tracked (st : State) : Prop :=
  ∀ r, r ∈ frameRequests (window st) → scrollFrame1Id st = Some r.1.

(** No request is queued, or exactly one, held in [scrollFrame1Id]. *)
Definition at_most_one_request (fr : list (nat * FrameCallback) * option nat)
  : Prop :=
  fr.1 = [] ∨ ∃ id cb, fr = ([(id, cb)], Some id).

(** What decides the scrolling of [showPage], and what it acts on. *)
Definition scrolling (st : State)
  : gmap number Z * Z * (list (nat * FrameCallback) * option nat) :=
  (scrollPositions st, scrollY (window st), frames st).

(** What [handleFinishedDialogue] has settled before it touches the
    document: the flag and its stored copy. *)
Definition finishedFlag (st : State) : bool * option string :=
  (dialogueFinished st, sessionStorage (window st) !! "dialogueFinished").



(** What the persisting functions leave to [showPage]. *)
Definition stored (st : State)
  : number * list HistoryState * gmap number Z * gmap string string :=
  (currentPage st, historyStates st, scrollPositions st,
   sessionStorage (window st)).

(** What [initializeHistory] settles and [showPage] leaves alone. *)
Definition settled (st : State)
  : number * list HistoryState * gmap number Z * gmap string string
    * NativeHistory :=
  (stored st, history (window st)).



(** ** Further sample inputs *)

(** The configuration of a survey whose chatbot page lies past its
    [.page] elements. *)
Definition misplaced_chatbot_config : Config :=
  {| totalPages := 4; chatbotPage := 9; textareaReplacement := false |}.



(* ===================================================================== *)
(** * Numerals and JSON texts *)
(* ===================================================================== *)











(** ** Lexing what the script prints *)









(** *** The history list *)







(** *** The scroll map *)








(* ===================================================================== *)
(** * Straight-line functions *)
(* ===================================================================== *)

Ltac run_script :=
  unfold bind, gets, modify, ret, throw, when, setItem; simpl.




Lemma saveScrollPositions_spec cfg pageNumber st :
  ∃ st', saveScrollPositions cfg pageNumber st = (Normal tt, st') ∧
    (strict_eq (currentPage st) (Num (chatbotPage cfg)) = false →
       st' = on_window (on_sessionStorage
               (insert "scrollPositions"
                  (stringify_scrollPositions
                     (<[pageNumber := scrollY (window st)]> (scrollPositions st)))))
               (set_scrollPositions
                  (<[pageNumber := scrollY (window st)]> (scrollPositions st)) st)) ∧
    (strict_eq (currentPage st) (Num (chatbotPage cfg)) = true → st' = st).
Proof.
  destruct st as [ps c p h s f1 f2 b d sp w]. destruct w.
  unfold saveScrollPositions. run_script.
  destruct (strict_eq p _); simpl; eexists; (split; [reflexivity |]);
    split; intros; done.
Qed.

Lemma pushPageToHistory_spec pg st :
  pushPageToHistory pg st =
    (Normal tt,
     on_window (on_sessionStorage (λ ss,
        <["historyStates" :=
            stringify_historyStates (historyStates st ++ [{| page := pg |}])]>
          (<["currentPage" := number_to_string (currentPage st)]> ss)))
       (on_window (on_history (pushState {| page := pg |}))
          (set_historyStates (historyStates st ++ [{| page := pg |}]) st))).
Proof.
  destruct st as [ps c p h s f1 f2 b d sp w]. destruct w. reflexivity.
Qed.

Lemma fresh_calls_NoDup visited ps :
  NoDup visited → fresh_calls visited ps → NoDup (visited ++ ps).
Proof.
  revert visited. induction ps as [|p ps IH]; intros visited Hv Hf; simpl in *.
  - by rewrite app_nil_r.
  - destruct Hf as [Hp Hf].
    replace (visited ++ p :: ps) with ((visited ++ [p]) ++ ps)
      by (by rewrite <- app_assoc).
    apply IH; [|done]. apply NoDup_app. repeat split; [done | | apply NoDup_singleton].
    intros x Hx ->%list_elem_of_singleton. done.
Qed.

Lemma pushAll_spec ps st :
  ∃ st', pushAll ps st = (Normal tt, st') ∧
    historyStates st' = historyStates st ++ (Build_HistoryState <$> ps) ∧
    history_upto (history (window st'))
      = history_upto (history (window st))
        ++ ((λ p, Some {| page := p |}) <$> ps) ∧
    (ps ≠ [] → hist_forward (history (window st')) = []).
Proof.
  revert st. induction ps as [|p ps IH]; intros st.
  - exists st. simpl. rewrite !app_nil_r. done.
  - simpl pushAll. unfold bind at 1. rewrite pushPageToHistory_spec.
    match goal with |- context [pushAll ps ?s] => destruct (IH s) as (st' & E & Hh & Hn & Hf) end.
    exists st'. split; [exact E |].
    destruct st as [pgs c cp h s f1 f2 b d sp w]. destruct w as [doc ss nh y pl bl fr nx ts evs].
    destruct nh as [hb hc hf pb]. simpl in *. rewrite Hh, Hn.
    unfold history_upto; simpl. rewrite reverse_cons, <- !app_assoc. simpl.
    repeat split. intros _. destruct ps as [|p' ps]; [| by apply Hf].
    unfold pushAll, ret in E. by injection E as <-.
Qed.






Lemma initializeHistory_eq pg st :
  initializeHistory pg st =
    (Normal tt,
     on_window (on_sessionStorage (λ ss,
        <["historyStates" := stringify_historyStates (initialized_history pg st)]>
          (<["currentPage" := number_to_string (currentPage st)]> ss)))
       (on_window (on_history (replaceState {| page := pg |}))
          (set_historyStates (initialized_history pg st) st))).
Proof.
  destruct st as [ps c p h s f1 f2 b d sp w]. destruct w.
  unfold initializeHistory, initialized_history, saveNavigationState.
  run_script. by destruct (existsb _ h).
Qed.


(** ** What a computation leaves alone *)

Section Preserves.
Context {B : Type} (f : State → B).

Lemma preserves_ret {A} (a : A) : preserves f (ret a).
Proof. by intros st. Qed.

Lemma preserves_throw {A} e : preserves f (@throw A e).
Proof. by intros st. Qed.

Lemma preserves_outside {A} : preserves f (@outside A).
Proof. by intros st. Qed.

Lemma preserves_gets {A} (g : State → A) : preserves f (gets g).
Proof. by intros st. Qed.

Lemma preserves_modify (g : State → State) :
  (∀ st, f (g st) = f st) → preserves f (modify g).
Proof. intros H st. apply H. Qed.

Lemma preserves_bind {A C} (m : M A) (k : A → M C) :
  preserves f m → (∀ a, preserves f (k a)) → preserves f (bind m k).
Proof.
  intros Hm Hk st. unfold bind. specialize (Hm st).
  destruct (m st) as [[a|e|] st1]; simpl in *; [| done | done].
  by rewrite Hk.
Qed.
End Preserves.

Ltac preserves_step :=
  match goal with
  | |- preserves _ (bind _ _) => apply preserves_bind; [| intros ?]
  | |- preserves _ (ret _) => apply preserves_ret
  | |- preserves _ (throw _) => apply preserves_throw
  | |- preserves _ outside => apply preserves_outside
  | |- preserves _ (gets _) => apply preserves_gets
  | |- preserves _ (modify _) =>
      apply preserves_modify;
      intros [? ? ? ? ? ? ? ? ? ? [? ? ? ? ? ? ? ? ? ?]]; reflexivity
  | |- preserves _ (when ?b _) => destruct b; unfold when
  | |- preserves _ (if ?b then _ else _) => destruct b
  | |- preserves _ (match ?x with _ => _ end) => destruct x
  end.

Ltac preserves_tac := repeat preserves_step.

Lemma classList_do_guards f ref : preserves guards (classList_do f ref).
Proof. unfold classList_do. preserves_tac. Qed.

Lemma saveNavigationState_guards : preserves guards saveNavigationState.
Proof. unfold saveNavigationState, setItem. preserves_tac. Qed.

Lemma setFinishedDialogueState_guards cfg :
  preserves guards (setFinishedDialogueState cfg).
Proof.
  unfold setFinishedDialogueState, lookupElement.
  preserves_tac; apply classList_do_guards.
Qed.

Lemma restoreState_guards cfg : preserves guards (restoreState cfg).
Proof.
  unfold restoreState, getItem, if_saved, parse_as.
  preserves_tac; apply setFinishedDialogueState_guards.
Qed.

Lemma applyChatbotViewState_guards cfg :
  preserves guards (applyChatbotViewState cfg).
Proof.
  unfold applyChatbotViewState, lookupElement, pageContainer, body_classList_do.
  preserves_tac; apply classList_do_guards.
Qed.

Lemma showPage_guards cfg n : preserves guards (showPage cfg n).
Proof.
  unfold showPage, cancelScrollDelays, lookupElement.
  preserves_tac;
    first [apply classList_do_guards | apply applyChatbotViewState_guards].
Qed.

Lemma initializeHistory_guards pg : preserves guards (initializeHistory pg).
Proof.
  unfold initializeHistory. preserves_tac. apply saveNavigationState_guards.
Qed.

Lemma initializePage_guards cfg : preserves guards (initializePage cfg).
Proof.
  unfold initializePage, referenceElements, attachEventListeners.
  preserves_tac;
    first [apply restoreState_guards | apply initializeHistory_guards
          | apply showPage_guards].
Qed.

Lemma handlePopState_unreferenced cfg ev st :
  guards st = (None, false) →
  handlePopState cfg ev st = (Throw TypeError, st).
Proof.
  intros [= Hcb Hb]. unfold handlePopState, reconcile, consentGate.
  run_script. by rewrite Hb, Hcb.
Qed.

Lemma deliver_unreferenced cfg evs st :
  guards st = (None, false) → deliver cfg evs st = st.
Proof.
  intros H. induction evs as [|ev evs IH]; [done |].
  unfold deliver in *. simpl. unfold dispatchPopState at 2.
  rewrite handlePopState_unreferenced by done. simpl.
  by destruct (popstateListener (window st)).
Qed.

(** ** The native history under the script *)

Lemma classList_do_native f ref : preserves native (classList_do f ref).
Proof. unfold classList_do. preserves_tac. Qed.

Lemma saveNavigationState_native : preserves native saveNavigationState.
Proof. unfold saveNavigationState, setItem. preserves_tac. Qed.

Lemma saveScrollPositions_native cfg n :
  preserves native (saveScrollPositions cfg n).
Proof. unfold saveScrollPositions, setItem. preserves_tac. Qed.

Lemma applyChatbotViewState_native cfg :
  preserves native (applyChatbotViewState cfg).
Proof.
  unfold applyChatbotViewState, lookupElement, pageContainer, body_classList_do.
  preserves_tac; apply classList_do_native.
Qed.

Lemma showPage_native cfg n : preserves native (showPage cfg n).
Proof.
  unfold showPage, cancelScrollDelays, lookupElement.
  preserves_tac;
    first [apply classList_do_native | apply applyChatbotViewState_native].
Qed.

Lemma consentGate_native ev : preserves native (consentGate ev).
Proof. unfold consentGate, eventPage. preserves_tac. Qed.

Lemma at_most_one_back_refl h h' : h' = h → at_most_one_back h h'.
Proof. intros ->. unfold at_most_one_back. repeat split; lia. Qed.

Lemma at_most_one_back_queued (g : State → State) s :
  native (g s) = native s →
  at_most_one_back (native s)
    (native (on_window (on_history history_back) (g s))).
Proof.
  intros Hg. rewrite <- Hg.
  destruct (g s) as [? ? ? ? ? ? ? ? ? ? [? ? [? ? ? ?] ? ? ? ? ? ?]].
  unfold at_most_one_back. simpl. repeat split; lia.
Qed.

(** An event leaves the entries of the native history alone and queues
    at most one back navigation. *)
Lemma handlePopState_native cfg ev st :
  at_most_one_back (native st) (native (handlePopState cfg ev st).2).
Proof.
  unfold handlePopState, bind at 1, gets at 1.
  destruct (bypassPopState st).
  { apply at_most_one_back_refl. by destruct st. }
  unfold reconcile, bind at 1.
  pose proof (consentGate_native ev st) as Hg.
  destruct (consentGate ev st) as [[gate|e|] s1]; simpl in Hg;
    [| by apply at_most_one_back_refl ..].
  rewrite <- Hg. destruct gate.
  { apply (at_most_one_back_queued (set_bypassPopState true)). by destruct s1. }
  unfold bind at 1, gets at 1.
  destruct (strict_eq (currentPage s1) (Num (totalPages cfg))).
  { apply (at_most_one_back_queued (on_window (set_popstateListener false))).
    by destruct s1 as [? ? ? ? ? ? ? ? ? ? [? ? ? ? ? ? ? ? ? ?]]. }
  apply at_most_one_back_refl.
  assert (Hrest : preserves native
    ((let* p := eventPage ev in
      let* cur := gets currentPage in
      if num_lt p cur
      then saveScrollPositions cfg cur;;
           modify (λ st, set_currentPage (decr (currentPage st)) st)
      else saveScrollPositions cfg cur;;
           modify (λ st, set_currentPage (incr (currentPage st)) st));;
     (let* cur := gets currentPage in showPage cfg cur);;
     saveNavigationState)).
  { unfold eventPage.
    preserves_tac;
      first [apply saveScrollPositions_native | apply showPage_native
            | apply saveNavigationState_native]. }
  apply Hrest.
Qed.

Lemma dispatchPopState_native cfg ev st :
  at_most_one_back (native st) (native (dispatchPopState cfg ev st)).
Proof.
  unfold dispatchPopState. destruct (popstateListener (window st)).
  - apply handlePopState_native.
  - by apply at_most_one_back_refl.
Qed.

(** [settle] does not run out of fuel: under [settle_fuel] every queued
    back navigation has been performed. *)
Lemma settle_settles cfg fuel st :
  2 * length (hist_back (native st)) + pendingBack (native st) < fuel →
  pendingBack (native (settle cfg fuel st)) = 0.
Proof.
  revert st. induction fuel as [|fuel IH]; intros st Hlt; [lia |].
  simpl. fold (native st).
  destruct (pendingBack (native st)) as [|n] eqn:Hp; [done |].
  apply IH. unfold traverseBack.
  set (s1 := on_window (on_history take_pending) st).
  assert (H1 : hist_back (native s1) = hist_back (native st) ∧
               pendingBack (native s1) = n).
  { subst s1. unfold native in *.
    destruct st as [? ? ? ? ? ? ? ? ? ? [? ? [? ? ? ?] ? ? ? ? ? ?]].
    simpl in *. by subst. }
  destruct H1 as [Hb1 Hp1]. fold (native s1).
  destruct (hist_back (native s1)) as [|e b] eqn:Hb.
  - rewrite Hb, Hp1. rewrite <- Hb1 in Hlt. simpl in *. lia.
  - set (s2 := on_window (on_history step_back) s1).
    assert (H2 : hist_back (native s2) = b ∧ pendingBack (native s2) = n).
    { subst s2. unfold native in *.
      destruct s1 as [? ? ? ? ? ? ? ? ? ? [? ? [? ? ? ?] ? ? ? ? ? ?]].
      simpl in *. by subst. }
    destruct H2 as [Hb2 Hp2].
    destruct (dispatchPopState_native cfg {| state := e |} s2)
      as (-> & _ & _ & Hle).
    rewrite Hb2. rewrite Hp2 in Hle. rewrite <- Hb1 in Hlt. simpl in *. lia.
Qed.

Lemma userBack_settles cfg st :
  pendingBack (native (userBack cfg st)) = 0.
Proof. unfold userBack, settle_fuel. apply settle_settles. unfold native. lia. Qed.

Lemma userForward_settles cfg st :
  pendingBack (native (userForward cfg st)) = 0.
Proof. unfold userForward, settle_fuel. apply settle_settles. unfold native. lia. Qed.

(* ===================================================================== *)
(** * Documents *)
(* ===================================================================== *)

Lemma elem_of_classList_add c c' l :
  c ∈ classList_add c' l ↔ c = c' ∨ c ∈ l.
Proof.
  unfold classList_add. case_bool_decide as H.
  - split; [auto |]. intros [-> | ?]; done.
  - rewrite elem_of_app, list_elem_of_singleton. tauto.
Qed.

Lemma elem_of_classList_remove c c' l :
  c ∈ classList_remove c' l ↔ c ≠ c' ∧ c ∈ l.
Proof. unfold classList_remove. by rewrite list_elem_of_filter. Qed.

Lemma classList_add_keeps c c' : c ≠ c' → keeps_class c (classList_add c').
Proof.
  intros Hne l. rewrite elem_of_classList_add.
  split; [by intros [-> | ?] | auto].
Qed.

Lemma classList_remove_keeps c c' :
  c ≠ c' → keeps_class c (classList_remove c').
Proof.
  intros Hne l. rewrite elem_of_classList_remove.
  split; [tauto | intros H; split; [by intros -> | done]].
Qed.

Lemma ids_update_element f i d : ids (update_element f i d) = ids d.
Proof.
  unfold ids, update_element. simpl.
  rewrite (list_fmap_alter el_id (with_classList f) id).
  - generalize (el_id <$> doc_elements d). intros l. revert i.
    induction l as [|x l IH]; intros [|i]; simpl; try done.
    f_equal. apply IH.
  - by apply Forall_forall.
Qed.

Lemma has_class_at_update_element c f i d j :
  has_class_at c (update_element f i d) j
  = if decide (i = j)
    then match doc_elements d !! i with
         | Some e => bool_decide (c ∈ f (classList e))
         | None => false
         end
    else has_class_at c d j.
Proof.
  unfold has_class_at, update_element. simpl. rewrite list_lookup_alter.
  destruct (decide (i = j)) as [-> | Hne]; [| done].
  by destruct (doc_elements d !! j).
Qed.

Lemma has_class_at_kept c f i d j :
  keeps_class c f →
  has_class_at c (update_element f i d) j = has_class_at c d j.
Proof.
  intros Hk. rewrite has_class_at_update_element.
  destruct (decide (i = j)) as [-> | Hne]; [| done].
  unfold has_class_at, has_class. destruct (doc_elements d !! j); [| done].
  apply bool_decide_ext, Hk.
Qed.

Lemma has_class_at_lt c d j : has_class_at c d j = true → j < length (ids d).
Proof.
  unfold has_class_at, ids. rewrite length_fmap.
  destruct (doc_elements d !! j) eqn:E; [| done].
  intros _. by eapply lookup_lt_Some.
Qed.

Lemma getElementById_lt d id i : getElementById d id = Some i → i < length (ids d).
Proof.
  unfold getElementById. destruct (list_find _ _) as [[j x]|] eqn:E; [| done].
  intros [= <-]. apply list_find_Some in E as (E & _). by eapply lookup_lt_Some.
Qed.

Lemma same_markup_refl d : same_markup d d.
Proof. by split. Qed.

Lemma same_markup_trans d1 d2 d3 :
  same_markup d1 d2 → same_markup d2 d3 → same_markup d1 d3.
Proof.
  intros [I1 P1] [I2 P2]. split; [congruence |]. intros i. by rewrite P2.
Qed.

Lemma same_display_refl d : same_display d d.
Proof. split; [apply same_markup_refl | done]. Qed.

Lemma same_display_trans d1 d2 d3 :
  same_display d1 d2 → same_display d2 d3 → same_display d1 d3.
Proof.
  intros [M1 A1] [M2 A2]. split; [by eapply same_markup_trans |].
  intros i. by rewrite A2.
Qed.

Lemma same_markup_update f i d :
  keeps_class "page" f → same_markup d (update_element f i d).
Proof.
  intros Hk. split; [apply ids_update_element |].
  intros j. by apply has_class_at_kept.
Qed.

Lemma same_display_update f i d :
  keeps_class "page" f → keeps_class "active" f →
  same_display d (update_element f i d).
Proof.
  intros Hp Ha. split; [by apply same_markup_update |].
  intros j. by apply has_class_at_kept.
Qed.

Lemma same_display_update_body f d : same_display d (update_body f d).
Proof. by repeat split. Qed.

Lemma same_markup_getElementById d d' id :
  same_markup d d' → getElementById d' id = getElementById d id.
Proof. intros [Hi _]. unfold getElementById. by rewrite Hi. Qed.

Lemma length_same_markup d d' :
  same_markup d d' → length (doc_elements d') = length (doc_elements d).
Proof.
  intros [Hi _]. apply (f_equal length) in Hi. unfold ids in Hi.
  by rewrite !length_fmap in Hi.
Qed.

Lemma same_markup_pages d d' :
  same_markup d d' →
  elementsByClassName d' "page" = elementsByClassName d "page".
Proof.
  intros Hm. unfold elementsByClassName.
  rewrite (length_same_markup _ _ Hm). apply list_filter_iff.
  intros i. destruct Hm as [_ Hp]. by rewrite Hp.
Qed.

Lemma same_display_displayedPages d d' :
  same_display d d' → displayedPages d' = displayedPages d.
Proof.
  intros [Hm Ha]. unfold displayedPages.
  rewrite (length_same_markup _ _ Hm). apply list_filter_iff.
  intros i. destruct Hm as [_ Hp]. by rewrite Hp, Ha.
Qed.

Lemma elem_of_elementsByClassName d c j :
  j ∈ elementsByClassName d c ↔ has_class_at c d j = true.
Proof.
  unfold elementsByClassName. rewrite list_elem_of_filter, elem_of_seq.
  split; [tauto |]. intros H. split; [done |].
  apply has_class_at_lt in H. unfold ids in H. rewrite length_fmap in H. lia.
Qed.

Lemma filter_seq_unique (P : nat → Prop) `{!∀ j, Decision (P j)} n i :
  i < n → (∀ j, j < n → (P j ↔ j = i)) → filter P (seq 0 n) = [i].
Proof.
  intros Hi HP.
  assert (Hnone : ∀ m, m ≤ i → filter P (seq 0 m) = []).
  { induction m as [|m IH]; intros Hm; [done |].
    rewrite seq_S, filter_app, IH by lia. simpl.
    rewrite filter_singleton_False; [done | exact [] |].
    intros HPm. apply HP in HPm; lia. }
  induction n as [|n IH]; [lia |].
  rewrite seq_S, filter_app. simpl.
  destruct (decide (i = n)) as [-> | Hne].
  - rewrite Hnone by lia. rewrite filter_singleton_True; [done | exact [] |].
    apply HP; lia.
  - rewrite IH; [| lia | intros j Hj; apply HP; lia].
    rewrite filter_singleton_False; [done | exact [] |].
    intros HPn. apply HP in HPn; lia.
Qed.

Lemma displayedPages_unique d i :
  i < length (doc_elements d) →
  (∀ j, has_class_at "page" d j && has_class_at "active" d j = true ↔ j = i) →
  displayedPages d = [i].
Proof.
  intros Hi H. unfold displayedPages. apply filter_seq_unique; [done |].
  intros j _. apply H.
Qed.

Lemma hide_all_spec ps d :
  same_markup d (hide_all ps d) ∧
  ∀ j, has_class_at "active" (hide_all ps d) j
       = has_class_at "active" d j && bool_decide (j ∉ ps).
Proof.
  revert d. induction ps as [|i ps IH]; intros d.
  - split; [apply same_markup_refl |]. intros j.
    change (hide_all [] d) with d.
    rewrite bool_decide_eq_true_2 by apply not_elem_of_nil.
    by rewrite andb_true_r.
  - unfold hide_all in *. simpl.
    destruct (IH (update_element (classList_remove "active") i d)) as [Hm Ha].
    split.
    + eapply same_markup_trans; [| exact Hm].
      apply same_markup_update. by apply classList_remove_keeps.
    + intros j. rewrite Ha, has_class_at_update_element.
      destruct (decide (i = j)) as [-> | Hne].
      * rewrite (bool_decide_eq_false_2 (j ∉ j :: ps)) by (rewrite not_elem_of_cons; tauto).
        rewrite andb_false_r.
        destruct (doc_elements d !! j); [| done].
        rewrite bool_decide_eq_false_2; [done |].
        rewrite elem_of_classList_remove. by intros [H _].
      * f_equal. apply bool_decide_ext. rewrite not_elem_of_cons.
        split; [intros H; split; [by intros -> | done] | by intros [_ ?]].
Qed.

Lemma show_one_spec d ps i :
  (∀ j, j ∈ ps ↔ has_class_at "page" d j = true) →
  i < length (doc_elements d) →
  has_class_at "page" d i = true →
  let d' := update_element (classList_add "active") i (hide_all ps d) in
  same_markup d d' ∧ displayedPages d' = [i].
Proof.
  intros Hps Hi Hp d'. destruct (hide_all_spec ps d) as [Hm Ha].
  assert (Hm' : same_markup d d').
  { eapply same_markup_trans; [exact Hm |].
    apply same_markup_update. by apply classList_add_keeps. }
  split; [done |]. apply displayedPages_unique.
  - by rewrite (length_same_markup _ _ Hm').
  - intros j. destruct Hm' as [_ Hpg]. rewrite Hpg. subst d'.
    rewrite has_class_at_update_element.
    destruct (decide (i = j)) as [-> | Hne].
    + rewrite Hp. simpl.
      destruct (doc_elements (hide_all ps d) !! j) eqn:E.
      * rewrite bool_decide_eq_true_2; [done |].
        rewrite elem_of_classList_add. by left.
      * apply lookup_ge_None in E.
        rewrite (length_same_markup _ _ Hm) in E. lia.
    + rewrite Ha. split; [| by intros ->].
      intros [H1 [H2 H3]%andb_prop]%andb_prop.
      apply bool_decide_eq_true in H3. by apply Hps in H1.
Qed.

(* ===================================================================== *)
(** * Displaying a page *)
(* ===================================================================== *)

(** ** Rules for [returns] *)

Lemma returns_ret {A} (a : A) st Q : Q a st → returns (ret a) st Q.
Proof. intros H. by exists a, st. Qed.

Lemma returns_gets {A} (g : State → A) st Q :
  Q (g st) st → returns (gets g) st Q.
Proof. intros H. by exists (g st), st. Qed.

Lemma returns_modify (g : State → State) st Q :
  Q tt (g st) → returns (modify g) st Q.
Proof. intros H. by exists tt, (g st). Qed.

Lemma returns_bind {A B} (m : M A) (k : A → M B) st Q :
  returns m st (λ a st', returns (k a) st' Q) → returns (bind m k) st Q.
Proof.
  intros (a & st1 & E & b & st2 & E' & HQ). exists b, st2.
  split; [| done]. unfold bind. by rewrite E.
Qed.

Lemma returns_weaken {A} (m : M A) st (Q Q' : A → State → Prop) :
  returns m st Q → (∀ a st', Q a st' → Q' a st') → returns m st Q'.
Proof. intros (a & st' & E & H) HQ. exists a, st'. auto. Qed.

Lemma returns_when (b : bool) m st (Q : unit → State → Prop) :
  (b = true → returns m st Q) → (b = false → Q tt st) →
  returns (when b m) st Q.
Proof.
  destruct b; simpl; intros H1 H2; [by apply H1 |].
  apply returns_ret. by apply H2.
Qed.

(** Sequencing under an invariant. *)
Lemma returns_inv_bind {A} (I : State → Prop) (m : M A) (k : A → M unit) st :
  returns m st (λ _ st', I st') →
  (∀ a st', I st' → returns (k a) st' (λ _ s, I s)) →
  returns (bind m k) st (λ _ s, I s).
Proof.
  intros Hm Hk. apply returns_bind. eapply returns_weaken; [exact Hm |].
  intros a st' HI. by apply Hk.
Qed.

(** ** Frames *)

Lemma display_frame_refl st : display_frame st st.
Proof. by repeat split. Qed.

Lemma display_frame_trans st1 st2 st3 :
  display_frame st1 st2 → display_frame st2 st3 → display_frame st1 st3.
Proof.
  unfold display_frame. intros H1 H2.
  destruct_and!. repeat split; congruence.
Qed.

Lemma view_step_refl st : view_step st st.
Proof. split; [apply display_frame_refl | apply same_display_refl]. Qed.

Lemma view_step_trans st1 st2 st3 :
  view_step st1 st2 → view_step st2 st3 → view_step st1 st3.
Proof.
  intros [F1 D1] [F2 D2]. split;
    [by eapply display_frame_trans | by eapply same_display_trans].
Qed.

Lemma view_step_update f i st :
  keeps_class "page" f → keeps_class "active" f →
  view_step st (on_window (on_document (update_element f i)) st).
Proof.
  intros Hp Ha. destruct st as [ps c p h s f1 f2 b d sp w]. destruct w.
  split; [by repeat split |]. simpl. by apply same_display_update.
Qed.

Lemma view_step_body f st :
  view_step st (on_window (on_document (update_body f)) st).
Proof.
  destruct st as [ps c p h s f1 f2 b d sp w]. destruct w.
  split; [by repeat split |]. simpl. apply same_display_update_body.
Qed.

Lemma view_step_timeout cb ms st :
  view_step st (on_window (set_timeout cb ms) st).
Proof.
  destruct st as [ps c p h s f1 f2 b d sp w]. destruct w.
  split; [by repeat split | apply same_display_refl].
Qed.

Lemma view_step_dispatch name st :
  view_step st (on_window (dispatch_event name) st).
Proof.
  destruct st as [ps c p h s f1 f2 b d sp w]. destruct w.
  split; [by repeat split | apply same_display_refl].
Qed.

Lemma view_step_pages st st' :
  view_step st st' →
  elementsByClassName (document (window st')) "page"
  = elementsByClassName (document (window st)) "page".
Proof. intros [_ [Hm _]]. by apply same_markup_pages. Qed.

(** ** The view functions *)

Lemma classList_do_view f ref st0 st :
  is_Some ref → keeps_class "page" f → keeps_class "active" f →
  view_step st0 st →
  returns (classList_do f ref) st (λ _ st', view_step st0 st').
Proof.
  intros [i ->] Hp Ha Hv. apply returns_modify.
  eapply view_step_trans; [exact Hv |]. by apply view_step_update.
Qed.

Ltac keeps := first [by apply classList_add_keeps | by apply classList_remove_keeps].

Lemma applyChatbotViewState_spec cfg st :
  chatbot_markup cfg (document (window st)) →
  returns (applyChatbotViewState cfg) st (λ _ st', view_step st st').
Proof.
  intros Hcm. unfold applyChatbotViewState, lookupElement.
  apply returns_bind, returns_gets. apply returns_bind, returns_gets.
  destruct (getElementById (document (window st)) "chatbot-interface")
    as [ci|] eqn:Eci; [| apply returns_ret, view_step_refl].
  destruct (getElementById (document (window st)) "survey-container")
    as [sc|] eqn:Esc; [| apply returns_ret, view_step_refl].
  destruct Hcm as [? | [? | [Hnn Hpc]]]; [congruence | congruence |].
  assert (Hcont : ∀ f st1, keeps_class "page" f → keeps_class "active" f →
    view_step st st1 →
    returns (let* pc := pageContainer cfg in classList_do f pc) st1
      (λ _ st', view_step st st')).
  { intros f st1 Hp Ha Hv. unfold pageContainer.
    apply returns_bind, returns_gets. cbv beta zeta.
    rewrite bool_decide_eq_true_2 by done.
    rewrite (view_step_pages _ _ Hv). by apply classList_do_view. }
  apply returns_bind, returns_gets.
  destruct (strict_eq (currentPage st) (Num (chatbotPage cfg))).
  - apply (returns_inv_bind (view_step st));
      [apply classList_do_view; [done | keeps | keeps | apply view_step_refl] |].
    intros _ s1 H1. apply (returns_inv_bind (view_step st));
      [apply classList_do_view; [done | keeps | keeps | done] |].
    intros _ s2 H2. apply (returns_inv_bind (view_step st));
      [apply classList_do_view; [done | keeps | keeps | done] |].
    intros _ s3 H3. apply (returns_inv_bind (view_step st));
      [apply Hcont; [keeps | keeps | done] |].
    intros _ s4 H4. apply (returns_inv_bind (view_step st)).
    { apply returns_modify. eapply view_step_trans; [exact H4 |].
      apply view_step_timeout. }
    intros _ s5 H5. apply returns_modify.
    eapply view_step_trans; [exact H5 | apply view_step_dispatch].
  - apply (returns_inv_bind (view_step st)).
    { apply returns_modify. apply view_step_body. }
    intros _ s1 H1. apply (returns_inv_bind (view_step st));
      [apply classList_do_view; [done | keeps | keeps | done] |].
    intros _ s2 H2. apply (returns_inv_bind (view_step st));
      [apply classList_do_view; [done | keeps | keeps | done] |].
    intros _ s3 H3. apply (returns_inv_bind (view_step st));
      [apply classList_do_view; [done | keeps | keeps | done] |].
    intros _ s4 H4. apply (returns_inv_bind (view_step st));
      [apply classList_do_view; [done | keeps | keeps | done] |].
    intros _ s5 H5. apply (returns_inv_bind (view_step st));
      [apply Hcont; [keeps | keeps | done] |].
    intros _ s6 H6. apply Hcont; [keeps | keeps | done].
Qed.

Lemma setFinishedDialogueState_spec cfg st :
  dialogue_containers (document (window st)) →
  returns (setFinishedDialogueState cfg) st (λ _ st', view_step st st').
Proof.
  intros [Hi Hf]. unfold setFinishedDialogueState, lookupElement.
  apply returns_bind, returns_gets. apply returns_bind, returns_gets.
  assert (Hpair : ∀ f g r1 r2, is_Some r1 → is_Some r2 →
    keeps_class "page" f → keeps_class "active" f →
    keeps_class "page" g → keeps_class "active" g →
    returns (classList_do f r1;; classList_do g r2) st
      (λ _ st', view_step st st')).
  { intros f g r1 r2 H1 H2 ? ? ? ?.
    apply (returns_inv_bind (view_step st));
      [apply classList_do_view; [done | done | done | apply view_step_refl] |].
    intros _ s1 Hs1. by apply classList_do_view. }
  destruct (negb (textareaReplacement cfg)); [apply Hpair; first [done | keeps] |].
  apply returns_bind, returns_gets.
  destruct (negb (dialogueFinished st)); apply Hpair; first [done | keeps].
Qed.

Lemma cancelScrollDelays_spec st :
  returns cancelScrollDelays st (λ _ st',
    display_frame st st' ∧ document (window st') = document (window st)).
Proof.
  destruct st as [ps c p h s f1 f2 b d sp w]. destruct w.
  unfold cancelScrollDelays, returns, bind, gets, modify, ret.
  destruct f1, f2; simpl; eexists _, _; (split; [reflexivity |]);
    by repeat split.
Qed.

Lemma chatbot_markup_same cfg d d' :
  same_markup d d' → chatbot_markup cfg d → chatbot_markup cfg d'.
Proof.
  intros Hm. unfold chatbot_markup.
  by rewrite !(same_markup_getElementById _ _ _ Hm), (same_markup_pages _ _ Hm).
Qed.


Lemma shows_step i st s s' :
  shows i st s → display_frame s s' →
  document (window s') = document (window s) → shows i st s'.
Proof.
  intros (F & Hm & Hd) F' D'. split; [by eapply display_frame_trans |].
  by rewrite D'.
Qed.

Lemma shows_view_step i st s s' :
  shows i st s → view_step s s' → shows i st s'.
Proof.
  intros (F & Hm & Hd) [F' D']. split; [by eapply display_frame_trans |].
  split.
  - eapply same_markup_trans; [exact Hm | apply D'].
  - by rewrite (same_display_displayedPages _ _ D').
Qed.

Lemma quiet_set_scrollPos v s :
  display_frame s (set_scrollPos v s) ∧
  document (window (set_scrollPos v s)) = document (window s).
Proof. destruct s as [? ? ? ? ? ? ? ? ? ? w]. by repeat split. Qed.

Lemma quiet_set_scrollFrame1Id v s :
  display_frame s (set_scrollFrame1Id v s) ∧
  document (window (set_scrollFrame1Id v s)) = document (window s).
Proof. destruct s as [? ? ? ? ? ? ? ? ? ? w]. by repeat split. Qed.

Lemma quiet_request_frame cb s :
  display_frame s (on_window (request_frame cb) s) ∧
  document (window (on_window (request_frame cb) s)) = document (window s).
Proof. destruct s as [? ? ? ? ? ? ? ? ? ? w]. destruct w. by repeat split. Qed.

Lemma quiet_set_scrollY v s :
  display_frame s (on_window (set_scrollY v) s) ∧
  document (window (on_window (set_scrollY v) s)) = document (window s).
Proof. destruct s as [? ? ? ? ? ? ? ? ? ? w]. destruct w. by repeat split. Qed.

Lemma showPage_spec cfg n st i :
  pages st = Some (elementsByClassName (document (window st)) "page") →
  page_element (document (window st)) n i →
  chatbot_markup cfg (document (window st)) →
  returns (showPage cfg n) st (λ _ st', shows i st st').
Proof.
  intros Hps [Hid Hpage] Hcm. unfold showPage.
  apply returns_bind. eapply returns_weaken; [apply cancelScrollDelays_spec |].
  intros _ s1 [F1 D1]. cbv beta.
  apply returns_bind, returns_gets.
  assert (Hps1 : pages s1 = Some (elementsByClassName (document (window st)) "page")).
  { destruct F1 as (-> & _). done. }
  rewrite Hps1. apply returns_bind, returns_modify.
  apply returns_bind. unfold lookupElement at 1. apply returns_bind, returns_gets.
  set (ps0 := elementsByClassName (document (window st)) "page") in *.
  set (s2 := on_window (on_document (hide_all ps0)) s1).
  change (on_window (on_document _) s1) with s2.
  assert (D2 : document (window s2) = hide_all ps0 (document (window st))).
  { subst s2. rewrite <- D1. destruct s1 as [? ? ? ? ? ? ? ? ? ? w]. by destruct w. }
  assert (F2 : display_frame st s2).
  { eapply display_frame_trans; [exact F1 |]. subst s2.
    destruct s1 as [? ? ? ? ? ? ? ? ? ? w]. destruct w. by repeat split. }
  destruct (hide_all_spec ps0 (document (window st))) as [Hm2 _].
  rewrite D2, (same_markup_getElementById _ _ _ Hm2), Hid.
  apply returns_modify.
  set (s3 := on_window (on_document (update_element (classList_add "active") i)) s2).
  assert (D3 : document (window s3)
               = update_element (classList_add "active") i
                   (hide_all ps0 (document (window st)))).
  { subst s3. rewrite <- D2. destruct s2 as [? ? ? ? ? ? ? ? ? ? w]. by destruct w. }
  assert (H3 : shows i st s3).
  { destruct (show_one_spec (document (window st)) ps0 i) as [Hm3 Hd3].
    - intros j. apply elem_of_elementsByClassName.
    - apply getElementById_lt in Hid. unfold ids in Hid.
      by rewrite length_fmap in Hid.
    - done.
    - split; [| by rewrite D3].
      eapply display_frame_trans; [exact F2 |]. subst s3.
      destruct s2 as [? ? ? ? ? ? ? ? ? ? w]. destruct w. by repeat split. }
  clearbody s3. clear D3 D2 F2 s2 Hps1 D1 F1 s1.
  apply (returns_inv_bind (shows i st)).
  { apply returns_when; [intros _ | done].
    eapply returns_weaken.
    - apply applyChatbotViewState_spec.
      eapply chatbot_markup_same; [apply H3 | done].
    - intros [] s4 H4. by eapply shows_view_step. }
  intros _ s4 H4. apply returns_when; [intros _ | done].
  unfold lookupElement. apply returns_bind, returns_gets.
  apply returns_bind, returns_gets. cbv beta.
  apply (returns_inv_bind (shows i st)).
  { apply returns_modify. eapply shows_step; [exact H4 | |];
      apply quiet_set_scrollPos. }
  intros _ s5 H5. destruct (scrollPositions s4 !! n).
  - apply returns_bind, returns_gets.
    apply (returns_inv_bind (shows i st)).
    { apply returns_modify. eapply shows_step; [exact H5 | |];
        apply quiet_request_frame. }
    intros _ s6 H6. apply returns_modify. eapply shows_step; [exact H6 | |];
      apply quiet_set_scrollFrame1Id.
  - apply returns_modify. eapply shows_step; [exact H5 | |];
      apply quiet_set_scrollY.
Qed.

(* ===================================================================== *)
(** * Restoring and reconciling *)
(* ===================================================================== *)






(* ===================================================================== *)
(** * External navigation: the pre-check and the two gates *)
(* ===================================================================== *)










(* ===================================================================== *)
(** * External navigation: the default branch *)
(* ===================================================================== *)




(** C6.  The claim is right and the script is wrong: [referenceElements]
    never assigns [consentCheckbox], and nothing sets [bypassPopState]
    before the checkbox is read, so after [initializePage] every popstate
    event makes [handlePopState] throw a TypeError at
    [consentCheckbox.checked], before it changes anything. *)
Theorem handlePopState_throws_after_initializePage cfg w st evs ev :
  initializePage cfg (loadScript w) = (Normal tt, st) →
  handlePopState cfg ev (deliver cfg evs st)
  = (Throw TypeError, deliver cfg evs st).
Proof.
  intros Hinit.
  assert (Hg : guards st = (None, false)).
  { pose proof (initializePage_guards cfg (loadScript w)) as H.
    by rewrite Hinit in H. }
  rewrite deliver_unreferenced by done.
  by apply handlePopState_unreferenced.
Qed.

Lemma handlePopState_throws_after_initializePage_witness :
  let st := loaded script_config in
  let ev := {| state := Some (numbered 1) |} in
  initializePage script_config (loadScript sample_window) = (Normal tt, st) ∧
  handlePopState script_config ev st = (Throw TypeError, st).
Proof.
  intros st ev.
  assert (Hinit : initializePage script_config (loadScript sample_window)
                  = (Normal tt, st)) by (by vm_compute).
  split; [done |].
  apply (handlePopState_throws_after_initializePage
           script_config sample_window st [] ev Hinit).
Defined.

(* ===================================================================== *)
(** * History list and native history *)
(* ===================================================================== *)

(** C3.  Starting from a history list without repeated pages, a sequence
    of [pushPageToHistory] calls, each on a page that is not in the list
    at the time of the call, returns normally; the list grows by the
    pages of the calls, in order (one entry a call), the native history
    gains the same entries after its current entry (one a call), and the
    list still holds every page at most once. *)
Theorem pushPageToHistory_single_append ps st :
  NoDup (page <$> historyStates st) →
  fresh_calls (page <$> historyStates st) ps →
  ∃ st', pushAll ps st = (Normal tt, st') ∧
    historyStates st' = historyStates st ++ ((λ p, {| page := p |}) <$> ps) ∧
    length (historyStates st') = length (historyStates st) + length ps ∧
    history_upto (history (window st'))
      = history_upto (history (window st))
        ++ ((λ p, Some {| page := p |}) <$> ps) ∧
    NoDup (page <$> historyStates st').
Proof.
  intros Hnd Hfresh.
  destruct (pushAll_spec ps st) as (st' & E & Hh & Hn & _).
  exists st'. split; [done |]. split; [done |]. split; [| split; [done |]].
  - by rewrite Hh, length_app, length_fmap.
  - rewrite Hh, fmap_app, <- list_fmap_compose.
    replace (page ∘ Build_HistoryState) with (@id number) by done.
    rewrite list_fmap_id. by apply fresh_calls_NoDup.
Qed.

Lemma pushPageToHistory_single_append_witness :
  let st := loadScript sample_window in
  let ps := [Num 1; Num 2; Num 3] in
  NoDup (page <$> historyStates st) ∧
  fresh_calls (page <$> historyStates st) ps ∧
  ∃ st', pushAll ps st = (Normal tt, st') ∧
         historyStates st' = numbered <$> [1; 2; 3]%Z.
Proof.
  intros st ps.
  assert (Hnd : NoDup (page <$> historyStates st)) by apply NoDup_nil_2.
  assert (Hf : fresh_calls (page <$> historyStates st) ps).
  { simpl. repeat split;
      repeat (apply not_elem_of_cons; split; [discriminate |]);
      apply not_elem_of_nil. }
  refine (conj Hnd (conj Hf _)).
  destruct (pushPageToHistory_single_append ps st Hnd Hf)
    as (st' & E & Hh & _).
  exists st'. split; [exact E |]. rewrite Hh. reflexivity.
Defined.

(** C8, as the code has it.  For every page and every state,
    [initializeHistory(page)] returns normally; it appends [{page}] to the
    history list exactly when no entry of the list carries the current
    page (whatever [page] is and wherever that entry stands), replaces the
    state of the current native entry without adding an entry, and
    persists the current page and the resulting list. *)
Theorem initializeHistory_appends_unless_current_page_known pg st :
  ∃ st', initializeHistory pg st = (Normal tt, st') ∧
    historyStates st' =
      (if existsb (λ obj, strict_eq (page obj) (currentPage st))
            (historyStates st)
       then historyStates st
       else historyStates st ++ [{| page := pg |}]) ∧
    history (window st') = replaceState {| page := pg |} (history (window st)) ∧
    hist_back (history (window st')) = hist_back (history (window st)) ∧
    hist_forward (history (window st')) = hist_forward (history (window st)) ∧
    sessionStorage (window st') !! "currentPage"
      = Some (number_to_string (currentPage st)) ∧
    sessionStorage (window st') !! "historyStates"
      = Some (stringify_historyStates (historyStates st')).
Proof.
  eexists. split; [apply initializeHistory_eq |].
  unfold initialized_history.
  destruct st as [ps c p h s f1 f2 b d sp w].
  destruct w as [doc ss nh y pl bl fr nx ts evs]. simpl.
  repeat split; by simplify_map_eq.
Qed.

(** C8 as stated fails: on page 1 with the history [{1},{2}] (page 2 was
    visited, then the user went back), page 1 is not the most recent
    entry, yet [initializeHistory(1)] appends nothing. *)
Lemma initializeHistory_not_most_recent_no_append :
  let st := set_currentPage (Num 1)
              (set_historyStates (numbered <$> [1; 2]%Z)
                 (loadScript sample_window)) in
  last (historyStates st) = Some (numbered 2) ∧
  historyStates (after (initializeHistory (Num 1)) st) = historyStates st.
Proof. vm_compute. repeat split. Qed.

(* ===================================================================== *)
(** * Scroll positions *)
(* ===================================================================== *)



(* ===================================================================== *)
(** * Reload *)
(* ===================================================================== *)






(* ===================================================================== *)
(** * Exceptions and frames *)
(* ===================================================================== *)

Lemma fails_throw {A} e st (Q : State → Prop) : Q st → fails (@throw A e) st e Q.
Proof. intros H. by exists st. Qed.

Lemma fails_bind_l {A B} (m : M A) (k : A → M B) st e Q :
  fails m st e Q → fails (bind m k) st e Q.
Proof. intros (st' & E & H). exists st'. unfold bind. by rewrite E. Qed.

Lemma fails_bind_r {A B} (m : M A) (k : A → M B) st e Q :
  returns m st (λ a st', fails (k a) st' e Q) → fails (bind m k) st e Q.
Proof.
  intros (a & st1 & E & st2 & E' & H). exists st2. unfold bind. by rewrite E.
Qed.

Lemma preserves_bind_cases {A B C} (f : State → B) (P : B → Prop)
    (m : M A) (k : A → M C) st :
  preserves f m → P (f st) →
  (∀ a s, f s = f st → P (f (k a s).2)) →
  P (f (bind m k st).2).
Proof.
  intros Hm H0 Hk. unfold bind. specialize (Hm st).
  destruct (m st) as [[a|e|] s1]; simpl in *; [| by rewrite Hm ..].
  by apply Hk.
Qed.

Ltac unfold_script :=
  unfold handlePopState, reconcile, consentGate, eventPage,
    saveScrollPositions, saveNavigationState, showPage, cancelScrollDelays,
    applyChatbotViewState, pageContainer, setItem, getItem, lookupElement,
    body_classList_do, classList_do.

(* ===================================================================== *)
(** * Displaying a page: further properties *)
(* ===================================================================== *)

(** X1.  [showPage] puts exactly one page on display.  When [pages] holds
    the [.page] elements of the document, the element [page<n>] is one of
    them and the chatbot markup is absent or complete, [showPage(n)]
    returns normally; afterwards that element is the only [.page] element
    that carries [active], the markup (ids and [.page] elements) is the
    same, and the navigation variables, the session storage, the native
    history and the listeners are untouched. *)
Theorem showPage_displays_exactly_the_page cfg n st i :
  pages st = Some (elementsByClassName (document (window st)) "page") →
  page_element (document (window st)) n i →
  chatbot_markup cfg (document (window st)) →
  ∃ st', showPage cfg n st = (Normal tt, st') ∧
    displayedPages (document (window st')) = [i] ∧
    same_markup (document (window st)) (document (window st')) ∧
    display_frame st st'.
Proof.
  intros Hps Hpe Hcm.
  destruct (showPage_spec cfg n st i Hps Hpe Hcm) as ([] & st' & E & F & M & D).
  by exists st'.
Qed.

Lemma showPage_displays_exactly_the_page_witness :
  let cfg := scenario_config 4 in
  let st := loaded cfg in
  page_element (document (window st)) (Num 3) 3 ∧
  ∃ st', showPage cfg (Num 3) st = (Normal tt, st') ∧
    displayedPages (document (window st')) = [3].
Proof.
  intros cfg st.
  assert (Hps : pages st
    = Some (elementsByClassName (document (window st)) "page"))
    by (by vm_compute).
  assert (Hpe : page_element (document (window st)) (Num 3) 3)
    by (split; by vm_compute).
  assert (Hcm : chatbot_markup cfg (document (window st))).
  { right; right. split; [by vm_compute |]. eexists. by vm_compute. }
  refine (conj Hpe _).
  destruct (showPage_displays_exactly_the_page cfg (Num 3) st 3 Hps Hpe Hcm)
    as (st' & E & Hd & _).
  exists st'. exact (conj E Hd).
Defined.

Lemma filter_seq_none (P : nat → Prop) `{!∀ j, Decision (P j)} a n :
  (∀ j, ¬ P j) → filter P (seq a n) = [].
Proof.
  intros Hno. induction (seq a n) as [|x l IH]; [done |].
  rewrite filter_cons_False; [exact IH | apply Hno].
Qed.

Lemma hide_all_hides d ps :
  (∀ j, has_class_at "page" d j = true → j ∈ ps) →
  displayedPages (hide_all ps d) = [].
Proof.
  intros Hps. destruct (hide_all_spec ps d) as [[_ Hp] Ha].
  unfold displayedPages. apply filter_seq_none. intros j.
  rewrite Hp, Ha. intros [H1 [H2 H3]%andb_prop]%andb_prop.
  apply bool_decide_eq_true in H3. apply H3. by apply Hps.
Qed.

Lemma showPage_missing_spec cfg n st :
  pages st = Some (elementsByClassName (document (window st)) "page") →
  getElementById (document (window st)) (pageId n) = None →
  fails (showPage cfg n) st TypeError (λ st',
    display_frame st st' ∧
    same_markup (document (window st)) (document (window st')) ∧
    displayedPages (document (window st')) = []).
Proof.
  intros Hps Hid. unfold showPage.
  apply fails_bind_r. eapply returns_weaken; [apply cancelScrollDelays_spec |].
  intros [] s1 [F1 D1]. cbv beta.
  apply fails_bind_r, returns_gets.
  assert (Hps1 : pages s1 = Some (elementsByClassName (document (window st)) "page")).
  { destruct F1 as (-> & _). done. }
  rewrite Hps1. apply fails_bind_r, returns_modify.
  set (ps0 := elementsByClassName (document (window st)) "page") in *.
  set (s2 := on_window (on_document (hide_all ps0)) s1).
  assert (D2 : document (window s2) = hide_all ps0 (document (window st))).
  { subst s2. rewrite <- D1. destruct s1 as [? ? ? ? ? ? ? ? ? ? w]. by destruct w. }
  assert (F2 : display_frame st s2).
  { eapply display_frame_trans; [exact F1 |]. subst s2.
    destruct s1 as [? ? ? ? ? ? ? ? ? ? w]. destruct w. by repeat split. }
  destruct (hide_all_spec ps0 (document (window st))) as [Hm2 _].
  apply fails_bind_l. unfold lookupElement. apply fails_bind_r, returns_gets.
  rewrite D2, (same_markup_getElementById _ _ _ Hm2), Hid.
  apply fails_throw. split; [done |]. rewrite D2. split; [done |].
  apply hide_all_hides. intros j Hj. by apply elem_of_elementsByClassName.
Qed.

(** X2.  [showPage] of a page the document does not hold.  When [pages]
    holds the [.page] elements and no element has the id [page<n>],
    [showPage(n)] throws a TypeError after it has hidden every page:
    nothing is on display afterwards, while the markup, the navigation
    variables, the storage and the native history are as before. *)
Theorem showPage_missing_page_hides_all cfg n st :
  pages st = Some (elementsByClassName (document (window st)) "page") →
  getElementById (document (window st)) (pageId n) = None →
  ∃ st', showPage cfg n st = (Throw TypeError, st') ∧
    displayedPages (document (window st')) = [] ∧
    same_markup (document (window st)) (document (window st')) ∧
    display_frame st st'.
Proof.
  intros Hps Hid.
  destruct (showPage_missing_spec cfg n st Hps Hid) as (st' & E & F & M & D).
  by exists st'.
Qed.

Lemma showPage_missing_page_hides_all_witness :
  let cfg := scenario_config 4 in
  let st := loaded cfg in
  displayedPages (document (window st)) = [1] ∧
  getElementById (document (window st)) (pageId (Num 5)) = None ∧
  ∃ st', showPage cfg (Num 5) st = (Throw TypeError, st') ∧
    displayedPages (document (window st')) = [].
Proof.
  intros cfg st.
  assert (Hps : pages st
    = Some (elementsByClassName (document (window st)) "page"))
    by (by vm_compute).
  assert (Hid : getElementById (document (window st)) (pageId (Num 5)) = None)
    by (by vm_compute).
  refine (conj eq_refl (conj Hid _)).
  destruct (showPage_missing_page_hides_all cfg (Num 5) st Hps Hid)
    as (st' & E & Hd & _).
  exists st'. exact (conj E Hd).
Defined.

Lemma cancelScrollDelays_tracked st :
  tracked st →
  ∃ st', cancelScrollDelays st = (Normal tt, st') ∧
    frameRequests (window st') = [] ∧ scrollFrame1Id st' = None.
Proof.
  intros Ht.
  destruct st as [ps c p h s f1 f2 b d sp w].
  destruct w as [doc ss nh y pl bl fr nx ts evs].
  unfold tracked in Ht. simpl in Ht.
  assert (Hf1 : ∀ id, f1 = Some id → filter (λ r, r.1 ≠ id) fr = []).
  { intros id ->. induction fr as [|r fr IH]; [done |].
    rewrite filter_cons_False.
    - apply IH. intros r' Hr'. apply Ht. by right.
    - intros Hne. specialize (Ht r (list_elem_of_here _ _)). congruence. }
  assert (Hnone : f1 = None → fr = []).
  { intros ->. destruct fr as [|r fr]; [done |].
    specialize (Ht r (list_elem_of_here _ _)). done. }
  unfold cancelScrollDelays, bind, gets, modify, ret. simpl.
  destruct f1 as [id1|]; simpl.
  - unfold cancel_frame. simpl. rewrite (Hf1 id1 eq_refl).
    destruct f2; simpl; eexists; (split; [reflexivity |]); done.
  - rewrite (Hnone eq_refl).
    destruct f2; simpl; eexists; (split; [reflexivity |]); done.
Qed.

Lemma applyChatbotViewState_frames cfg :
  preserves frames (applyChatbotViewState cfg).
Proof. unfold_script. preserves_tac. Qed.

Lemma at_most_one_request_tracked st :
  at_most_one_request (frames st) →
  tracked st ∧ length (frameRequests (window st)) ≤ 1.
Proof.
  unfold frames, tracked. intros [H | (id & cb & [= H1 H2])]; simpl in *.
  - rewrite H. split; [by intros r ?%elem_of_nil | simpl; lia].
  - rewrite H1, H2. split; [| simpl; lia].
    by intros r ->%list_elem_of_singleton.
Qed.

Lemma showPage_frames cfg n st :
  tracked st → at_most_one_request (frames (showPage cfg n st).2).
Proof.
  intros Ht. unfold showPage. unfold bind at 1.
  destruct (cancelScrollDelays_tracked st Ht) as (s1 & -> & Hfr & Hid).
  assert (H1 : frames s1 = ([], None)) by (unfold frames; by rewrite Hfr, Hid).
  clear Hfr Hid Ht.
  assert (HP : ∀ s, frames s = frames s1 → at_most_one_request (frames s)).
  { intros s ->. rewrite H1. by left. }
  apply preserves_bind_cases; [apply preserves_gets | by apply HP |].
  intros ps s2 H2.
  apply preserves_bind_cases;
    [unfold_script; preserves_tac | by apply HP |].
  intros _ s3 H3. rewrite H2 in H3.
  apply preserves_bind_cases;
    [unfold_script; preserves_tac | by apply HP |].
  intros _ s4 H4. rewrite H3 in H4.
  apply preserves_bind_cases;
    [unfold when; destruct (_ && _);
       [apply applyChatbotViewState_frames | apply preserves_ret]
    | by apply HP |].
  intros _ s5 H5. rewrite H4, H1 in H5.
  unfold when. destruct (negb _);
    [| change (frames (ret tt s5).2) with (frames s5); rewrite H5; by left].
  unfold lookupElement, bind, gets, modify.
  destruct s5 as [ps5 c p h s f1 f2 b d sp w].
  destruct w as [doc ss nh y pl bl fr nx ts evs].
  unfold frames in H5. simpl in H5. injection H5 as -> ->. simpl.
  destruct (s !! n); simpl; [right; by eexists _, _ | by left].
Qed.

(** X3.  Scroll restorations do not pile up.  If every queued frame
    request is the one [scrollFrame1Id] refers to (as after script load,
    when nothing is queued), then after [showPage], however it ends, at
    most one request is queued and it is again the one [scrollFrame1Id]
    refers to: the request made for the previous page has been cancelled.
    (The requests are the ones [showPage] makes itself; their callbacks
    are queued, not run.) *)
Theorem showPage_keeps_at_most_one_scroll_request cfg n st :
  tracked st →
  tracked (after (showPage cfg n) st) ∧
  length (frameRequests (window (after (showPage cfg n) st))) ≤ 1.
Proof.
  intros Ht. by apply at_most_one_request_tracked, showPage_frames.
Qed.

Lemma showPage_keeps_at_most_one_scroll_request_witness :
  let cfg := scenario_config 4 in
  let st := userBack cfg (userBack cfg (scenario 4)) in
  tracked st ∧
  length (frameRequests (window (after (showPage cfg (Num 3)) st))) ≤ 1.
Proof.
  intros cfg st.
  assert (Ht : tracked st).
  { intros r Hr. vm_compute in Hr. vm_compute.
    apply list_elem_of_singleton in Hr. by subst r. }
  exact (conj Ht (proj2 (showPage_keeps_at_most_one_scroll_request cfg (Num 3) st Ht))).
Defined.

Lemma applyChatbotViewState_scrolling cfg :
  preserves scrolling (applyChatbotViewState cfg).
Proof. unfold_script. preserves_tac. Qed.

(** X4.  Where [showPage] scrolls.  Starting with no stray frame request,
    a completed [showPage(n)] leaves the window where it is and queues
    nothing when [n] is the chatbot page; for any other page without a
    recorded offset it scrolls to the top and queues nothing; for a page
    with a recorded offset it sets [scrollPos] to that offset and queues
    exactly one frame request for the restoration, whose handle it keeps
    in [scrollFrame1Id] (the window moves only when the queued callback
    runs). *)
Theorem showPage_scroll_decision cfg n st st' :
  tracked st →
  showPage cfg n st = (Normal tt, st') →
  if strict_eq n (Num (chatbotPage cfg)) then
    scrollY (window st') = scrollY (window st) ∧
    frameRequests (window st') = []
  else
    match scrollPositions st !! n with
    | None =>
        scrollY (window st') = 0%Z ∧ frameRequests (window st') = []
    | Some y =>
        scrollY (window st') = scrollY (window st) ∧
        scrollPos st' = Some y ∧
        ∃ id el, frameRequests (window st') = [(id, RestoreScroll el)] ∧
                 scrollFrame1Id st' = Some id
    end.
Proof.
  intros Ht. unfold showPage. unfold bind at 1.
  assert (Hc : preserves (λ s, (scrollPositions s, scrollY (window s)))
                 cancelScrollDelays)
    by (unfold cancelScrollDelays; preserves_tac).
  specialize (Hc st).
  destruct (cancelScrollDelays_tracked st Ht) as (s1 & E1 & Hfr & Hid).
  rewrite E1 in Hc |- *. simpl in Hc. injection Hc as Hsp1 Hy1.
  assert (H1 : scrolling s1 = (scrollPositions st, scrollY (window st), ([], None))).
  { unfold scrolling, frames. by rewrite Hsp1, Hy1, Hfr, Hid. }
  clear E1 Hfr Hid Hsp1 Hy1 Ht.
  unfold bind at 1, gets at 1. unfold bind at 1.
  match goal with |- context [match ?m s1 with _ => _ end] =>
    assert (Hm : preserves scrolling m) by (unfold_script; preserves_tac);
    specialize (Hm s1); destruct (m s1) as [[[]|e|] s2]; [| done ..]
  end.
  simpl in Hm. rewrite H1 in Hm. clear H1 s1.
  unfold bind at 1.
  match goal with |- context [match ?m s2 with _ => _ end] =>
    assert (Hm' : preserves scrolling m) by (unfold_script; preserves_tac);
    specialize (Hm' s2); destruct (m s2) as [[[]|e|] s3]; [| done ..]
  end.
  simpl in Hm'. rewrite Hm in Hm'. clear Hm s2.
  unfold bind at 1.
  match goal with |- context [match ?m s3 with _ => _ end] =>
    assert (Hm : preserves scrolling m)
      by (unfold when; destruct (_ && _);
          [apply applyChatbotViewState_scrolling | apply preserves_ret]);
    specialize (Hm s3); destruct (m s3) as [[[]|e|] s4]; [| done ..]
  end.
  simpl in Hm. rewrite Hm' in Hm. clear Hm' s3.
  unfold scrolling, frames in Hm. injection Hm as Hsp Hy Hfr Hid.
  destruct (strict_eq n (Num (chatbotPage cfg))); simpl negb; unfold when.
  { intros [= <-]. done. }
  unfold lookupElement, bind, gets, modify.
  destruct s4 as [ps4 c p h s f1 f2 b d sp w].
  destruct w as [doc ss nh y pl bl fr nx ts evs]. simpl in *. subst.
  destruct (scrollPositions st !! n); simpl; intros [= <-]; simpl;
    repeat split; by eexists _, _.
Qed.

Lemma showPage_scroll_decision_witness :
  let cfg := scenario_config 4 in
  let st := scenario 4 in
  let st' := after (showPage cfg (Num 1)) st in
  tracked st ∧ scrollPositions st !! Num 1 = Some 0%Z ∧
  ∃ id el, frameRequests (window st') = [(id, RestoreScroll el)] ∧
           scrollFrame1Id st' = Some id.
Proof.
  intros cfg st st'.
  assert (Ht : tracked st).
  { intros r Hr. vm_compute in Hr. by apply elem_of_nil in Hr. }
  assert (E : showPage cfg (Num 1) st = (Normal tt, st')) by (by vm_compute).
  refine (conj Ht (conj eq_refl _)).
  exact (proj2 (proj2 (showPage_scroll_decision cfg (Num 1) st st' Ht E))).
Defined.

(* ===================================================================== *)
(** * The chatbot view and the dialogue controls *)
(* ===================================================================== *)

Lemma lookup_of_lt d i :
  i < length (ids d) → is_Some (doc_elements d !! i).
Proof.
  unfold ids. rewrite length_fmap. apply lookup_lt_is_Some_2.
Qed.

Lemma has_class_at_add_same c i d :
  i < length (ids d) →
  has_class_at c (update_element (classList_add c) i d) i = true.
Proof.
  intros [e He]%lookup_of_lt. rewrite has_class_at_update_element.
  rewrite decide_True by done. rewrite He.
  apply bool_decide_eq_true_2, elem_of_classList_add. by left.
Qed.

Lemma has_class_at_add_mono c c' i d j :
  has_class_at c d j = true →
  has_class_at c (update_element (classList_add c') i d) j = true.
Proof.
  intros H. rewrite has_class_at_update_element.
  destruct (decide (i = j)) as [-> | Hne]; [| done].
  unfold has_class_at, has_class in H.
  destruct (doc_elements d !! j); [| done].
  apply bool_decide_eq_true in H.
  apply bool_decide_eq_true_2, elem_of_classList_add. by right.
Qed.

Lemma has_class_at_remove_same c i d :
  has_class_at c (update_element (classList_remove c) i d) i = false.
Proof.
  rewrite has_class_at_update_element, decide_True by done.
  destruct (doc_elements d !! i); [| done].
  apply bool_decide_eq_false_2. rewrite elem_of_classList_remove. by intros [].
Qed.

Lemma has_class_at_remove_anti c c' i d j :
  has_class_at c d j = false →
  has_class_at c (update_element (classList_remove c') i d) j = false.
Proof.
  intros H. rewrite has_class_at_update_element.
  destruct (decide (i = j)) as [-> | Hne]; [| done].
  unfold has_class_at, has_class in H.
  destruct (doc_elements d !! j); [| done].
  apply bool_decide_eq_false in H.
  apply bool_decide_eq_false_2. rewrite elem_of_classList_remove. tauto.
Qed.

Lemma has_class_at_other c f i d j :
  i ≠ j → has_class_at c (update_element f i d) j = has_class_at c d j.
Proof. intros H. rewrite has_class_at_update_element. by rewrite decide_False. Qed.

Lemma ids_length_update f i d :
  length (ids (update_element f i d)) = length (ids d).
Proof. by rewrite ids_update_element. Qed.

Lemma pages_update f i d :
  keeps_class "page" f →
  elementsByClassName (update_element f i d) "page"
  = elementsByClassName d "page".
Proof. intros Hk. by apply same_markup_pages, same_markup_update. Qed.

Lemma pages_update_body f d :
  elementsByClassName (update_body f d) "page" = elementsByClassName d "page".
Proof. reflexivity. Qed.

Lemma document_on_document g s :
  document (window (on_window (on_document g) s)) = g (document (window s)).
Proof. destruct s as [? ? ? ? ? ? ? ? ? ? w]. by destruct w. Qed.

Lemma window_on_document g s :
  dispatchedEvents (window (on_window (on_document g) s))
    = dispatchedEvents (window s) ∧
  timeouts (window (on_window (on_document g) s)) = timeouts (window s).
Proof. destruct s as [? ? ? ? ? ? ? ? ? ? w]. by destruct w. Qed.

Lemma classList_do_Some f i :
  classList_do f (Some i) = modify (on_window (on_document (update_element f i))).
Proof. reflexivity. Qed.

Lemma getElementById_inj d a b i :
  getElementById d a = Some i → getElementById d b = Some i → a = b.
Proof.
  unfold getElementById. intros Ha Hb.
  destruct (list_find (λ x, x = a) (ids d)) as [[ia xa]|] eqn:Ea; [| done].
  destruct (list_find (λ x, x = b) (ids d)) as [[ib xb]|] eqn:Eb; [| done].
  simpl in *. injection Ha as ->. injection Hb as ->.
  apply list_find_Some in Ea as (Ea & -> & _).
  apply list_find_Some in Eb as (Eb & -> & _). congruence.
Qed.

Lemma pageContainer_lt d k pc :
  elementsByClassName d "page" !! k = Some pc → pc < length (ids d).
Proof.
  intros H. apply list_elem_of_lookup_2 in H.
  apply elem_of_elementsByClassName in H. by eapply has_class_at_lt.
Qed.

(** X5.  The chatbot view follows the current page.  In a document that
    holds the chatbot interface, the survey container and the page
    container of the chatbot page, [applyChatbotViewState] returns
    normally, and afterwards the interface, the survey container and the
    page container carry [chatbot-visible] exactly when the current page is
    the chatbot page; the interface carries [chatbot-hidden] exactly when
    it is not.  On the chatbot page one [chatbotInterfaceOpened] event is
    dispatched and the deferred lock is scheduled after 100 ms; on any
    other page nothing is dispatched or scheduled and the body and both
    containers are left without the visible and locked classes. *)
Theorem applyChatbotViewState_shows_chatbot_on_its_page cfg st ci sc pc :
  getElementById (document (window st)) "chatbot-interface" = Some ci →
  getElementById (document (window st)) "survey-container" = Some sc →
  (0 ≤ chatbotPage cfg - 1)%Z →
  elementsByClassName (document (window st)) "page"
    !! Z.to_nat (chatbotPage cfg - 1) = Some pc →
  ∃ st', applyChatbotViewState cfg st = (Normal tt, st') ∧
    let d' := document (window st') in
    let opened := strict_eq (currentPage st) (Num (chatbotPage cfg)) in
    has_class_at "chatbot-visible" d' ci = opened ∧
    has_class_at "chatbot-hidden" d' ci = negb opened ∧
    has_class_at "chatbot-visible" d' sc = opened ∧
    has_class_at "chatbot-visible" d' pc = opened ∧
    dispatchedEvents (window st')
      = dispatchedEvents (window st)
        ++ (if opened then ["chatbotInterfaceOpened"] else []) ∧
    timeouts (window st')
      = timeouts (window st)
        ++ (if opened then [(100%Z, LockChatbotView)] else []) ∧
    (opened = false →
     ("chatbot-visible" ∉ body_classList d') ∧
     has_class_at "chatbot-visible-locked" d' sc = false ∧
     has_class_at "chatbot-visible-locked" d' pc = false).
Proof.
  intros Eci Esc Hnn Hpc.
  pose proof (getElementById_lt _ _ _ Eci) as Hci.
  pose proof (getElementById_lt _ _ _ Esc) as Hsc.
  pose proof (pageContainer_lt _ _ _ Hpc) as Hpcl.
  cut (returns (applyChatbotViewState cfg) st (λ _ st',
    let d' := document (window st') in
    let opened := strict_eq (currentPage st) (Num (chatbotPage cfg)) in
    has_class_at "chatbot-visible" d' ci = opened ∧
    has_class_at "chatbot-hidden" d' ci = negb opened ∧
    has_class_at "chatbot-visible" d' sc = opened ∧
    has_class_at "chatbot-visible" d' pc = opened ∧
    dispatchedEvents (window st')
      = dispatchedEvents (window st)
        ++ (if opened then ["chatbotInterfaceOpened"] else []) ∧
    timeouts (window st')
      = timeouts (window st)
        ++ (if opened then [(100%Z, LockChatbotView)] else []) ∧
    (opened = false →
     ("chatbot-visible" ∉ body_classList d') ∧
     has_class_at "chatbot-visible-locked" d' sc = false ∧
     has_class_at "chatbot-visible-locked" d' pc = false))).
  { intros ([] & st' & E & H). by exists st'. }
  unfold applyChatbotViewState, lookupElement, pageContainer, body_classList_do.
  apply returns_bind, returns_gets. apply returns_bind, returns_gets.
  rewrite Eci, Esc. apply returns_bind, returns_gets.
  rewrite !classList_do_Some.
  destruct (strict_eq (currentPage st) (Num (chatbotPage cfg))) eqn:Hon.
  - do 3 apply returns_bind, returns_modify.
    apply returns_bind, returns_bind, returns_gets. cbv beta zeta.
    rewrite bool_decide_eq_true_2 by done.
    rewrite !document_on_document, !pages_update by keeps. rewrite Hpc.
    rewrite classList_do_Some. apply returns_modify.
    match goal with |- returns _ ?s _ => set (s4 := s) end.
    assert (Hd4 : document (window s4)
      = update_element (classList_add "chatbot-visible") pc
          (update_element (classList_add "chatbot-visible") sc
             (update_element (classList_add "chatbot-visible") ci
                (update_element (classList_remove "chatbot-hidden") ci
                   (document (window st))))))
      by (subst s4; by rewrite !document_on_document).
    assert (He4 : dispatchedEvents (window s4) = dispatchedEvents (window st) ∧
                  timeouts (window s4) = timeouts (window st)).
    { subst s4. by rewrite !(proj1 (window_on_document _ _)),
                           !(proj2 (window_on_document _ _)). }
    clearbody s4. apply returns_bind, returns_modify, returns_modify.
    destruct He4 as [He4 Ht4].
    destruct s4 as [? ? ? ? ? ? ? ? ? ? w]. destruct w. simpl in Hd4, He4, Ht4.
    subst. cbn -[has_class_at update_element].
    repeat split; try done.
    + do 2 apply has_class_at_add_mono. apply has_class_at_add_same.
      by rewrite ids_length_update.
    + rewrite !has_class_at_kept by keeps. apply has_class_at_remove_same.
    + apply has_class_at_add_mono, has_class_at_add_same.
      by rewrite !ids_length_update.
    + apply has_class_at_add_same. by rewrite !ids_length_update.
  - apply returns_bind, returns_modify. do 4 apply returns_bind, returns_modify.
    apply returns_bind. apply returns_bind, returns_gets. cbv beta zeta.
    rewrite bool_decide_eq_true_2 by done.
    rewrite !document_on_document, !pages_update by keeps.
    rewrite pages_update_body, Hpc.
    rewrite classList_do_Some. apply returns_modify.
    apply returns_bind, returns_gets. cbv beta zeta.
    rewrite !document_on_document, !pages_update by keeps.
    rewrite pages_update_body, Hpc.
    rewrite classList_do_Some. apply returns_modify.
    cbv beta zeta.
    rewrite !document_on_document, !(proj1 (window_on_document _ _)),
      !(proj2 (window_on_document _ _)), !app_nil_r.
    repeat split; try done.
    + do 4 apply has_class_at_remove_anti.
      rewrite has_class_at_kept by keeps. apply has_class_at_remove_same.
    + rewrite !has_class_at_kept by keeps. apply has_class_at_add_same.
      by rewrite ids_length_update.
    + do 3 apply has_class_at_remove_anti. apply has_class_at_remove_same.
    + apply has_class_at_remove_anti, has_class_at_remove_same.
    + cbn -[classList_remove]. rewrite elem_of_classList_remove. by intros [].
    + do 2 apply has_class_at_remove_anti. apply has_class_at_remove_same.
    + apply has_class_at_remove_same.
Qed.

Lemma applyChatbotViewState_shows_chatbot_on_its_page_witness :
  let cfg := scenario_config 4 in
  let st := set_currentPage (Num 2) (loaded cfg) in
  getElementById (document (window st)) "chatbot-interface" = Some 5 ∧
  getElementById (document (window st)) "survey-container" = Some 0 ∧
  ∃ st', applyChatbotViewState cfg st = (Normal tt, st') ∧
    has_class_at "chatbot-visible" (document (window st')) 5 = true ∧
    has_class_at "chatbot-hidden" (document (window st')) 5 = false ∧
    dispatchedEvents (window st')
      = dispatchedEvents (window st) ++ ["chatbotInterfaceOpened"].
Proof.
  intros cfg st.
  assert (Eci : getElementById (document (window st)) "chatbot-interface"
                = Some 5) by reflexivity.
  assert (Esc : getElementById (document (window st)) "survey-container"
                = Some 0) by reflexivity.
  assert (Hnn : (0 ≤ chatbotPage cfg - 1)%Z) by (vm_compute; discriminate).
  assert (Hpc : elementsByClassName (document (window st)) "page"
                  !! Z.to_nat (chatbotPage cfg - 1) = Some 2) by reflexivity.
  refine (conj Eci (conj Esc _)).
  destruct (applyChatbotViewState_shows_chatbot_on_its_page cfg st 5 0 2
              Eci Esc Hnn Hpc) as (st' & E & H1 & H2 & _ & _ & H5 & _).
  exists st'. exact (conj E (conj H1 (conj H2 H5))).
Defined.

(** X6.  How [applyChatbotViewState] ends depends on the markup alone.
    Without the chatbot interface or without the survey container it
    returns at once and changes nothing.  With both, it completes when the
    [.page] elements include the container of the chatbot page, and throws
    a TypeError when they do not (fewer [.page] elements than
    [chatbotPage], or [chatbotPage] below 1). *)
Theorem applyChatbotViewState_outcome cfg st :
  let d := document (window st) in
  (getElementById d "chatbot-interface" = None ∨
   getElementById d "survey-container" = None →
   applyChatbotViewState cfg st = (Normal tt, st)) ∧
  (chatbot_markup cfg d → (applyChatbotViewState cfg st).1 = Normal tt) ∧
  (¬ chatbot_markup cfg d →
   (applyChatbotViewState cfg st).1 = Throw TypeError).
Proof.
  intros d. subst d. split; [| split].
  - unfold applyChatbotViewState, lookupElement, bind, gets.
    destruct (getElementById _ "chatbot-interface"); [| done].
    destruct (getElementById _ "survey-container"); [| done].
    by intros [? | ?].
  - intros Hcm.
    destruct (applyChatbotViewState_spec cfg st Hcm) as ([] & st' & -> & _).
    done.
  - intros Hcm.
    cut (fails (applyChatbotViewState cfg) st TypeError (λ _, True)).
    { intros (st' & -> & _). done. }
    destruct (getElementById (document (window st)) "chatbot-interface")
      as [ci|] eqn:Eci; [| exfalso; apply Hcm; by left].
    destruct (getElementById (document (window st)) "survey-container")
      as [sc|] eqn:Esc; [| exfalso; apply Hcm; right; by left].
    assert (Hpc : (if bool_decide (0 ≤ chatbotPage cfg - 1)%Z
                   then elementsByClassName (document (window st)) "page"
                          !! Z.to_nat (chatbotPage cfg - 1)
                   else None) = None).
    { case_bool_decide as Hnn; [| done].
      destruct (_ !! _) eqn:E; [| done].
      exfalso. apply Hcm. right. right. by rewrite E. }
    unfold applyChatbotViewState, lookupElement, pageContainer,
      body_classList_do.
    apply fails_bind_r, returns_gets. apply fails_bind_r, returns_gets.
    rewrite Eci, Esc. apply fails_bind_r, returns_gets.
    rewrite !classList_do_Some.
    destruct (strict_eq (currentPage st) (Num (chatbotPage cfg))).
    + do 3 apply fails_bind_r, returns_modify.
      apply fails_bind_l, fails_bind_r, returns_gets. cbv beta zeta.
      rewrite !document_on_document, !pages_update by keeps. rewrite Hpc.
      by apply fails_throw.
    + apply fails_bind_r, returns_modify.
      do 4 apply fails_bind_r, returns_modify.
      apply fails_bind_l, fails_bind_r, returns_gets. cbv beta zeta.
      rewrite !document_on_document, !pages_update by keeps.
      rewrite pages_update_body, Hpc.
      by apply fails_throw.
Qed.

Lemma applyChatbotViewState_outcome_witness :
  let st := loadScript sample_window in
  ¬ chatbot_markup misplaced_chatbot_config (document (window st)) ∧
  (applyChatbotViewState misplaced_chatbot_config st).1 = Throw TypeError.
Proof.
  intros st.
  assert (Hn : ¬ chatbot_markup misplaced_chatbot_config (document (window st))).
  { intros [H | [H | [_ [x H]]]]; vm_compute in H; discriminate. }
  exact (conj Hn
    (proj2 (proj2 (applyChatbotViewState_outcome misplaced_chatbot_config st))
       Hn)).
Defined.

(** X7.  Which of the two dialogue controls is visible.  In a document
    that holds the input container and the finished-dialogue container,
    [setFinishedDialogueState] returns normally and afterwards the input
    container is hidden, and the finished-dialogue container shown,
    exactly when [textareaReplacement] is enabled and the dialogue is
    finished; in every other case the input container is shown and the
    finished-dialogue container hidden.  The pages on display and the
    navigation state are untouched. *)
Theorem setFinishedDialogueState_shows_one_control cfg st inp fin :
  getElementById (document (window st)) "input-container" = Some inp →
  getElementById (document (window st)) "finished-dialogue-container"
    = Some fin →
  ∃ st', setFinishedDialogueState cfg st = (Normal tt, st') ∧
    let d' := document (window st') in
    let replaced := textareaReplacement cfg && dialogueFinished st in
    has_class_at "hidden" d' inp = replaced ∧
    has_class_at "hidden" d' fin = negb replaced ∧
    view_step st st'.
Proof.
  intros Ei Ef.
  assert (Hne : inp ≠ fin).
  { intros ->. by pose proof (getElementById_inj _ _ _ _ Ei Ef). }
  pose proof (getElementById_lt _ _ _ Ei) as Hi.
  pose proof (getElementById_lt _ _ _ Ef) as Hf.
  destruct (setFinishedDialogueState_spec cfg st) as ([] & st' & E & Hv).
  { split; by eexists. }
  exists st'. split; [exact E |]. cbv zeta.
  cut (returns (setFinishedDialogueState cfg) st (λ _ s,
    has_class_at "hidden" (document (window s)) inp
      = textareaReplacement cfg && dialogueFinished st ∧
    has_class_at "hidden" (document (window s)) fin
      = negb (textareaReplacement cfg && dialogueFinished st))).
  { intros ([] & s & E' & H1 & H2). rewrite E in E'. injection E' as <-.
    done. }
  unfold setFinishedDialogueState, lookupElement.
  apply returns_bind, returns_gets. apply returns_bind, returns_gets.
  rewrite Ei, Ef, !classList_do_Some.
  assert (Hshown : returns
    (modify (on_window (on_document (update_element (classList_add "hidden") fin)));;
     modify (on_window (on_document (update_element (classList_remove "hidden") inp))))
    st (λ _ s,
      has_class_at "hidden" (document (window s)) inp = false ∧
      has_class_at "hidden" (document (window s)) fin = true)).
  { apply returns_bind, returns_modify, returns_modify.
    rewrite !document_on_document. split; [apply has_class_at_remove_same |].
    rewrite has_class_at_other by done. by apply has_class_at_add_same. }
  destruct (textareaReplacement cfg); simpl negb; cbv iota; [| exact Hshown].
  apply returns_bind, returns_gets.
  destruct (dialogueFinished st); simpl negb; cbv iota; [| exact Hshown].
  apply returns_bind, returns_modify, returns_modify.
  rewrite !document_on_document. split; [| apply has_class_at_remove_same].
  rewrite has_class_at_other by done. by apply has_class_at_add_same.
Qed.

Lemma setFinishedDialogueState_shows_one_control_witness :
  let cfg := {| totalPages := 4; chatbotPage := 2;
                textareaReplacement := true |} in
  let st := set_dialogueFinished true (loaded cfg) in
  getElementById (document (window st)) "input-container" = Some 6 ∧
  getElementById (document (window st)) "finished-dialogue-container"
    = Some 7 ∧
  ∃ st', setFinishedDialogueState cfg st = (Normal tt, st') ∧
    has_class_at "hidden" (document (window st')) 6 = true ∧
    has_class_at "hidden" (document (window st')) 7 = false.
Proof.
  intros cfg st.
  assert (Ei : getElementById (document (window st)) "input-container"
               = Some 6) by reflexivity.
  assert (Ef : getElementById (document (window st))
                 "finished-dialogue-container" = Some 7) by reflexivity.
  refine (conj Ei (conj Ef _)).
  destruct (setFinishedDialogueState_shows_one_control cfg st 6 7 Ei Ef)
    as (st' & E & H1 & H2 & _).
  exists st'. exact (conj E (conj H1 H2)).
Defined.

(** X8.  [setFinishedDialogueState] needs both containers: it returns
    normally when the document holds the input container and the
    finished-dialogue container, and throws a TypeError when either is
    missing, whatever the configuration and the dialogue flag. *)
Theorem setFinishedDialogueState_outcome cfg st :
  (dialogue_containers (document (window st)) →
   (setFinishedDialogueState cfg st).1 = Normal tt) ∧
  (¬ dialogue_containers (document (window st)) →
   (setFinishedDialogueState cfg st).1 = Throw TypeError).
Proof.
  split.
  - intros Hdc.
    by destruct (setFinishedDialogueState_spec cfg st Hdc)
      as ([] & st' & -> & _).
  - intros Hdc. unfold setFinishedDialogueState, lookupElement.
    unfold bind at 1, gets at 1. unfold bind at 1, gets at 1.
    destruct (getElementById _ "input-container") as [inp|] eqn:Ei;
      destruct (getElementById _ "finished-dialogue-container")
        as [fin|] eqn:Ef;
      [exfalso; apply Hdc; split; by eexists | ..];
      destruct (textareaReplacement cfg), (dialogueFinished st) eqn:Hfin;
      unfold bind, gets; cbn; rewrite ?Hfin; reflexivity.
Qed.

Lemma setFinishedDialogueState_outcome_witness :
  let st := loadScript (reload {| body_classList := []; doc_elements := [] |}
                          sample_window) in
  ¬ dialogue_containers (document (window st)) ∧
  (setFinishedDialogueState script_config st).1 = Throw TypeError.
Proof.
  intros st.
  assert (Hn : ¬ dialogue_containers (document (window st))).
  { intros [[x H] _]. vm_compute in H. discriminate. }
  exact (conj Hn (proj2 (setFinishedDialogueState_outcome script_config st) Hn)).
Defined.

Lemma setFinishedDialogueState_finishedFlag cfg :
  preserves finishedFlag (setFinishedDialogueState cfg).
Proof.
  unfold setFinishedDialogueState, lookupElement, classList_do.
  preserves_tac.
Qed.

(** X9.  A finished dialogue stays finished.  After
    [handleFinishedDialogue], however it ends (also when the document
    lacks the dialogue containers), the flag is set, and a reload of the
    tab starts the script with the flag set again: the stored copy is
    written before the document is touched, and the script reads it back
    when it is loaded. *)
Theorem handleFinishedDialogue_survives_reload cfg st html :
  let st' := after (handleFinishedDialogue cfg) st in
  dialogueFinished st' = true ∧
  dialogueFinished (loadScript (reload html (window st'))) = true.
Proof.
  intros st'. subst st'. unfold after, handleFinishedDialogue.
  unfold bind at 1, modify at 1. unfold bind at 1, setItem, modify at 1.
  match goal with |- context [setFinishedDialogueState cfg ?s] =>
    pose proof (setFinishedDialogueState_finishedFlag cfg s) as H;
    assert (H0 : finishedFlag s = (true, Some "true"))
  end.
  { destruct st as [? ? ? ? ? ? ? ? ? ? w]. destruct w.
    unfold finishedFlag. simpl. by simplify_map_eq. }
  rewrite H0 in H. unfold finishedFlag in H. injection H as H1 H2.
  split; [exact H1 |]. exact (bool_decide_eq_true_2 _ H2).
Qed.

(* ===================================================================== *)
(** * Persistence across reloads *)
(* ===================================================================== *)



















(* ===================================================================== *)
(** * Initialization *)
(* ===================================================================== *)

Lemma showPage_settled cfg n : preserves settled (showPage cfg n).
Proof. unfold_script. preserves_tac. Qed.

Lemma existsb_snoc_current hs c :
  c ≠ NaN →
  existsb (λ obj, strict_eq (page obj) c) (hs ++ [{| page := c |}]) = true.
Proof.
  intros Hc. rewrite existsb_app. apply orb_true_iff. right. simpl.
  destruct c as [z|]; [| done]. simpl. by rewrite bool_decide_eq_true_2.
Qed.

(** X14.  What every completed initialization leaves behind, whatever the
    session storage held: the state of the current native entry is
    [{page: currentPage}] and no entry was added behind or ahead of it;
    the popstate handler and one more [beforeunload] listener are
    registered; the stored current page is the current page; the current
    page, unless it is NaN, is in the history list; and
    [surveyDataInitialized] is the last event dispatched. *)
Theorem initializePage_postconditions cfg w st' :
  initializePage cfg (loadScript w) = (Normal tt, st') →
  history (window st')
    = replaceState {| page := currentPage st' |} (history w) ∧
  popstateListener (window st') = true ∧
  beforeunloadListeners (window st') = S (beforeunloadListeners w) ∧
  sessionStorage (window st') !! "currentPage"
    = Some (number_to_string (currentPage st')) ∧
  sessionStorage (window st') !! "historyStates"
    = Some (stringify_historyStates (historyStates st')) ∧
  (currentPage st' ≠ NaN →
   existsb (λ obj, strict_eq (page obj) (currentPage st'))
     (historyStates st') = true) ∧
  last (dispatchedEvents (window st')) = Some "surveyDataInitialized".
Proof.
  unfold initializePage, referenceElements.
  unfold bind at 1, modify at 1. unfold bind at 1.
  match goal with |- context [restoreState cfg ?s] => set (s1 := s) end.
  assert (Hr : preserves (λ s, (history (window s), beforeunloadListeners (window s)))
                 (restoreState cfg)).
  { unfold restoreState, getItem, if_saved, parse_as,
      setFinishedDialogueState, lookupElement, classList_do.
    preserves_tac. }
  specialize (Hr s1).
  destruct (restoreState cfg s1) as [[[]|e|] s2]; [| done ..].
  simpl in Hr. injection Hr as Hh2 Hb2.
  unfold bind at 1. unfold bind at 1, gets at 1.
  rewrite initializeHistory_eq.
  match goal with |- _ ?s = _ → _ => set (s3 := s) end.
  unfold bind at 1. unfold bind at 1, gets at 1.
  pose proof (showPage_settled cfg (currentPage s3) s3) as Hs.
  assert (Hl : preserves (λ s, beforeunloadListeners (window s))
                 (showPage cfg (currentPage s3)))
    by (unfold_script; preserves_tac).
  specialize (Hl s3).
  destruct (showPage cfg (currentPage s3) s3) as [[[]|e|] s4]; [| done ..].
  simpl in Hs, Hl. unfold attachEventListeners, bind, modify.
  intros [= <-].
  unfold settled, stored in Hs. injection Hs as Hc Hhs _ Hss Hnh.
  subst s3.
  destruct s4 as [? c4 ? h4 ? ? ? ? ? ? w4]. destruct w4.
  destruct s2 as [? ? c2 h2 ? ? ? ? ? ? w2]. destruct w2. simpl in *.
  subst. repeat split.
  - by simplify_map_eq.
  - by simplify_map_eq.
  - intros Hc. unfold initialized_history. simpl.
    destruct (existsb _ h2) eqn:E; [done |]. by apply existsb_snoc_current.
  - by rewrite last_snoc.
Qed.

Lemma initializePage_postconditions_witness :
  let cfg := scenario_config 4 in
  let w := reloaded_window in
  let st' := after (initializePage cfg) (loadScript w) in
  initializePage cfg (loadScript w) = (Normal tt, st') ∧
  history (window st') = replaceState (numbered 2) (history w) ∧
  popstateListener (window st') = true.
Proof.
  intros cfg w st'.
  assert (E : initializePage cfg (loadScript w) = (Normal tt, st'))
    by (by vm_compute).
  destruct (initializePage_postconditions cfg w st' E) as (H1 & H2 & _).
  exact (conj E (conj H1 H2)).
Defined.









(* ===================================================================== *)
(** * External navigation: further properties *)
(* ===================================================================== *)

Lemma handlePopState_historyStates cfg ev :
  preserves historyStates (handlePopState cfg ev).
Proof. unfold_script. preserves_tac. Qed.

Lemma reconcile_tail_currentPage cfg :
  preserves currentPage
    ((let* cur := gets currentPage in showPage cfg cur);; saveNavigationState).
Proof. unfold_script. preserves_tac. Qed.

Lemma moveOneStep_one_step cfg ev st :
  one_step (currentPage st) (currentPage (moveOneStep cfg ev st).2).
Proof.
  unfold moveOneStep, eventPage.
  destruct (state ev) as [o|]; [| by left].
  unfold bind at 1, ret at 1. unfold bind at 1, gets at 1.
  destruct (saveScrollPositions_spec cfg (currentPage st) st)
    as (s1 & E & Hw & Hs).
  assert (Hc : currentPage s1 = currentPage st).
  { destruct (strict_eq (currentPage st) (Num (chatbotPage cfg)));
      [by rewrite Hs | rewrite Hw by done].
    destruct st as [? ? ? ? ? ? ? ? ? ? w]. by destruct w. }
  destruct (num_lt (page o) (currentPage st)); unfold bind, modify;
    rewrite E; simpl; rewrite <- Hc; destruct s1; simpl; unfold one_step; auto.
Qed.

Lemma handlePopState_one_step cfg ev st :
  one_step (currentPage st) (currentPage (handlePopState cfg ev st).2).
Proof.
  unfold handlePopState, bind at 1, gets at 1.
  destruct (bypassPopState st); [left; by destruct st |].
  unfold reconcile, bind at 1.
  assert (Hg : preserves currentPage (consentGate ev))
    by (unfold consentGate, eventPage; preserves_tac).
  specialize (Hg st).
  destruct (consentGate ev st) as [[gate|e|] s1]; simpl in Hg;
    [| by left ..].
  rewrite <- Hg. destruct gate.
  { left. destruct s1 as [? ? ? ? ? ? ? ? ? ? w]. by destruct w. }
  unfold bind at 1, gets at 1.
  destruct (strict_eq (currentPage s1) (Num (totalPages cfg))).
  { left. destruct s1 as [? ? ? ? ? ? ? ? ? ? w]. by destruct w. }
  fold (moveOneStep cfg ev). unfold bind at 1.
  pose proof (moveOneStep_one_step cfg ev s1) as Hm.
  destruct (moveOneStep cfg ev s1) as [[[]|e|] s2]; simpl in Hm; [| done ..].
  by rewrite (reconcile_tail_currentPage cfg s2).
Qed.

Lemma dispatchPopState_historyStates cfg ev st :
  historyStates (dispatchPopState cfg ev st) = historyStates st.
Proof.
  unfold dispatchPopState. destruct (popstateListener (window st)); [| done].
  apply handlePopState_historyStates.
Qed.

(** X17.  Whatever popstate events the browser delivers, and however the
    handler ends on each of them, the history list of the script and the
    entries of the native history (behind, current and ahead) stay as they
    are: external navigation never adds, removes or rewrites an entry. *)
Theorem popstate_events_keep_the_histories cfg evs st :
  historyStates (deliver cfg evs st) = historyStates st ∧
  hist_back (native (deliver cfg evs st)) = hist_back (native st) ∧
  hist_current (native (deliver cfg evs st)) = hist_current (native st) ∧
  hist_forward (native (deliver cfg evs st)) = hist_forward (native st).
Proof.
  revert st. induction evs as [|ev evs IH]; intros st; [done |].
  change (deliver cfg (ev :: evs) st)
    with (deliver cfg evs (dispatchPopState cfg ev st)).
  destruct (IH (dispatchPopState cfg ev st)) as (-> & -> & -> & ->).
  destruct (dispatchPopState_native cfg ev st) as (-> & -> & -> & _).
  by rewrite dispatchPopState_historyStates.
Qed.

(** X18.  One event moves the current page by at most one step, whatever
    page its state names and however the handler ends: afterwards the
    current page is the old one, its predecessor or its successor. *)
Theorem handlePopState_moves_at_most_one_step cfg ev st :
  one_step (currentPage st) (currentPage (after (handlePopState cfg ev) st)).
Proof. apply handlePopState_one_step. Qed.














